(** * Notebooker: job launcher, output monitor, rerun and snapshot export

    A shallow embedding of [notebooker/web/routes/run_report.py] and
    [notebooker/snapshot.py].  Python [str] values are modelled as Rocq
    strings holding their UTF-8 encoding, [bytes] as lists of bytes, the
    insertion-ordered [dict] of overrides as an association list, and the
    result store as a finite map from job identities to job records. *)

From Stdlib Require Import ZArith NArith Ascii String List Bool Lia.
From Stdlib.Strings Require Import Byte.
From stdpp Require Import base option list gmap strings pretty.

Local Open Scope string_scope.
Local Open Scope Z_scope.
Local Open Scope list_scope.

(** ** Python string primitives used by the sources *)

Module Str.

(** [s.startswith(p)] *)
Definition startswith (s p : string) : bool := String.prefix p s.

Definition is_slash (c : ascii) : bool := Ascii.eqb c "/".

(** [s.endswith("/")] *)
Fixpoint endswith_slash (s : string) : bool :=
  match s with
  | EmptyString => false
  | String c EmptyString => is_slash c
  | String _ s' => endswith_slash s'
  end.

(** ["/" in s] *)
Fixpoint contains_slash (s : string) : bool :=
  match s with
  | EmptyString => false
  | String c s' => is_slash c || contains_slash s'
  end.

(** [s.split("/")]: never the empty list. *)
Fixpoint split_slash (s : string) : list string :=
  match s with
  | EmptyString => [EmptyString]
  | String c s' =>
      if is_slash c then EmptyString :: split_slash s'
      else match split_slash s' with
           | x :: xs => String c x :: xs
           | [] => [String c EmptyString]
           end
  end.

(** [xs[-1]] on a list known to be non-empty ([split] always returns one). *)
Definition last_item (xs : list string) : string := List.last xs EmptyString.

(** [s.rstrip("/")] *)
Fixpoint rstrip_slash (s : string) : string :=
  match s with
  | EmptyString => EmptyString
  | String c s' =>
      match rstrip_slash s' with
      | EmptyString => if is_slash c then EmptyString else String c EmptyString
      | r => String c r
      end
  end.

(** [s == "/" * len(s)] *)
Fixpoint all_slashes (s : string) : bool :=
  match s with
  | EmptyString => true
  | String c s' => is_slash c && all_slashes s'
  end.

(** ["".join(xs)] *)
Definition join_empty (xs : list string) : string :=
  fold_right String.append EmptyString xs.

End Str.

(** ** [posixpath] functions used by the sources *)

Module OsPath.
Import Str.

(** One round of the loop of [posixpath.join]. *)
Definition join_step (path b : string) : string :=
  if startswith b "/" then b
  else if String.eqb path "" || endswith_slash path then path +:+ b
  else path +:+ "/" +:+ b.

(** [os.path.join(a, *p)] *)
Definition join (a : string) (p : list string) : string :=
  fold_left join_step p a.

(** [p[:p.rfind("/") + 1]] *)
Fixpoint head_upto_last_slash (p : string) : string :=
  match p with
  | EmptyString => EmptyString
  | String c p' =>
      if is_slash c || contains_slash p'
      then String c (head_upto_last_slash p')
      else EmptyString
  end.

(** [os.path.dirname(p)] *)
Definition dirname (p : string) : string :=
  let head := head_upto_last_slash p in
  if negb (String.eqb head "") && negb (all_slashes head)
  then rstrip_slash head
  else head.

End OsPath.

(** ** Rerun title (the conditional expression of [_rerun_report]) *)

Definition rerun_prefix : string := "Rerun of ".

Definition rerun_title (report_title : string) : string :=
  if Str.startswith report_title rerun_prefix
  then report_title
  else rerun_prefix +:+ report_title.

(** ** Data model *)

(** Parameter values of a report: the scalar values a notebook parameter
    cell takes. *)
Inductive pyval :=
  | PyStr (s : string)
  | PyInt (z : Z)
  | PyBool (b : bool)
  | PyNone.

(** [format(v, "")], as used by an f-string replacement field [{v}]. *)
Definition format_value (v : pyval) : string :=
  match v with
  | PyStr s => s
  | PyInt z => pretty z
  | PyBool true => "True"
  | PyBool false => "False"
  | PyNone => "None"
  end.

(** An insertion-ordered [dict] from parameter names to values; [items()]
    enumerates the pairs in list order. *)
Abbreviation Overrides := (list (string * pyval)).

(** Modelled from the spec: [notebooker.constants.JobStatus] is not among
    the sources; the members are the ones the data model lists. *)
Inductive JobStatus := SUBMITTED | RUNNING | DONE | ERROR | CANCELLED.

Record JobRecord := mkJobRecord {
  job_id : string;
  report_name : string;
  report_title : string;
  overrides : Overrides;
  status : JobStatus;
  job_start_time : Z;
  mailto : string;
  mailfrom : option string;
  generate_pdf_output : bool;
  hide_code : bool;
  scheduler_job_id : option string;
  stdout : list string;
  raw_html : string;
  raw_html_resources_outputs : list (string * list Byte.byte)
}.

Definition set_stdout (f : list string → list string) (r : JobRecord) : JobRecord :=
  {| job_id := job_id r; report_name := report_name r;
     report_title := report_title r; overrides := overrides r;
     status := status r; job_start_time := job_start_time r;
     mailto := mailto r; mailfrom := mailfrom r;
     generate_pdf_output := generate_pdf_output r; hide_code := hide_code r;
     scheduler_job_id := scheduler_job_id r; stdout := f (stdout r);
     raw_html := raw_html r;
     raw_html_resources_outputs := raw_html_resources_outputs r |}.

(** ** Exceptions and the state-and-exception monad *)

Inductive Errno := EEXIST | ENOENT | EACCES | ENOTDIR | EISDIR | ENOSPC | EROFS.

Inductive exn :=
  | PersistenceError
  | UnicodeDecodeError
  | RuntimeError (msg : string)
  | HTTPException (code : Z)
  | OSError (errno : Errno).

(** A computation over a state [S] that returns or raises; the state reached
    is kept in both cases (nothing is rolled back by an exception). *)
Definition M (S A : Type) : Type := S → (exn + A) * S.

Definition ret {S A} (a : A) : M S A := λ s, (inr a, s).

Definition raise {S A} (e : exn) : M S A := λ s, (inl e, s).

Definition bind {S A B} (m : M S A) (k : A → M S B) : M S B :=
  λ s, match m s with
       | (inl e, s') => (inl e, s')
       | (inr a, s') => k a s'
       end.

Notation "x <- m ;; k" := (bind m (λ x, k))
  (at level 100, m at next level, right associativity).
Notation "m ;;; k" := (bind m (λ _, k))
  (at level 100, right associativity).

(** ** Result store *)

(** What the store does with one write call: it applies it, it acknowledges
    an incremental append that is then lost, or it is unreachable. *)
Inductive write_outcome := Applied | AppendLost | Unreachable.

(** [faults] schedules the outcomes of the coming write calls, one per call;
    once it is used up every write is applied. *)
Record Store := mkStore {
  records : gmap string JobRecord;
  faults : list write_outcome
}.

Definition next_outcome : M Store write_outcome :=
  λ st, match faults st with
        | [] => (inr Applied, st)
        | o :: rest => (inr o, {| records := records st; faults := rest |})
        end.

Definition modify_records (f : gmap string JobRecord → gmap string JobRecord)
  : M Store unit :=
  λ st, (inr (), {| records := f (records st); faults := faults st |}).

(** Modelled from the spec: the serializer class is not among the sources.
    [save_check_stub] creates or overwrites the initial record and fails with
    a persistence error when the store is unreachable. *)
Definition save_check_stub (job_id report_name report_title : string)
    (job_start_time : Z) (status : JobStatus) (overrides : Overrides)
    (mailto : string) (generate_pdf_output hide_code : bool)
    (scheduler_job_id : option string) : M Store unit :=
  o <- next_outcome ;;
  match o with
  | Unreachable => raise PersistenceError
  | _ =>
      modify_records
        (insert job_id
           {| job_id := job_id; report_name := report_name;
              report_title := report_title; overrides := overrides;
              status := status; job_start_time := job_start_time;
              mailto := mailto; mailfrom := None;
              generate_pdf_output := generate_pdf_output;
              hide_code := hide_code; scheduler_job_id := scheduler_job_id;
              stdout := []; raw_html := "";
              raw_html_resources_outputs := [] |})
  end.

(** Modelled from the spec: [update_stdout] appends [new_lines] to the stored
    sequence of the job or, with [replace], sets the stored sequence to
    exactly [new_lines]; an unknown job has no stored sequence to update. *)
Definition update_stdout (job_id : string) (new_lines : list string)
    (replace : bool) : M Store unit :=
  o <- next_outcome ;;
  match o with
  | Unreachable => raise PersistenceError
  | AppendLost =>
      if replace
      then modify_records (alter (set_stdout (λ _, new_lines)) job_id)
      else ret ()
  | Applied =>
      modify_records
        (alter (set_stdout (λ old, if replace then new_lines
                                   else old ++ new_lines)) job_id)
  end.

(** Modelled from the spec: [get_check_result] is a point lookup, [None] for
    an unknown job. *)
Definition get_check_result (job_id : string) (st : Store) : option JobRecord :=
  records st !! job_id.

(** ** [bytes.decode("utf-8")] *)

Module Utf8.

Definition between (lo hi : N) (b : Byte.byte) : bool :=
  ((lo <=? Byte.to_N b) && (Byte.to_N b <=? hi))%N.

(** A continuation byte, [0x80..0xBF]. *)
Definition cont (b : Byte.byte) : bool := between 0x80 0xBF b.

(** The well-formed byte sequences of UTF-8: shortest form only, no
    surrogates, nothing above U+10FFFF.  The strict error handler accepts
    exactly these. *)
Fixpoint well_formed (bs : list Byte.byte) : bool :=
  match bs with
  | [] => true
  | b0 :: r0 =>
      if between 0x00 0x7F b0 then well_formed r0
      else if between 0xC2 0xDF b0 then
        match r0 with
        | b1 :: r1 => cont b1 && well_formed r1
        | _ => false
        end
      else if between 0xE0 0xEF b0 then
        match r0 with
        | b1 :: b2 :: r2 =>
            (if between 0xE0 0xE0 b0 then between 0xA0 0xBF b1
             else if between 0xED 0xED b0 then between 0x80 0x9F b1
             else cont b1)
            && cont b2 && well_formed r2
        | _ => false
        end
      else if between 0xF0 0xF4 b0 then
        match r0 with
        | b1 :: b2 :: b3 :: r3 =>
            (if between 0xF0 0xF0 b0 then between 0x90 0xBF b1
             else if between 0xF4 0xF4 b0 then between 0x80 0x8F b1
             else cont b1)
            && cont b2 && cont b3 && well_formed r3
        | _ => false
        end
      else false
  end.

(** [raw.decode("utf-8")]: the text, or [None] where Python raises
    [UnicodeDecodeError]. *)
Definition decode (raw : list Byte.byte) : option string :=
  if well_formed raw then Some (string_of_list_byte raw) else None.

End Utf8.

(** ** The launched process and the environment of one submission *)

(** The child process as the orchestrator observes it.  [stderr_reads] lists
    what the successive calls of [stderr.readline()] return, each paired with
    whether the process has exited by then (whether [poll()] would give an
    exit code); once the list is used up the stream is at end of file and the
    process has exited, so every further read returns [b""] and [poll()]
    returns [exit_code].  What the child itself reports to the store is its
    own business and no part of the orchestrator. *)
Record Process := mkProcess {
  stderr_reads : list (list Byte.byte * bool);
  exit_code : Z
}.

Definition next_read (reads : list (list Byte.byte * bool))
  : list Byte.byte * bool * list (list Byte.byte * bool) :=
  match reads with
  | [] => ([], true, [])
  | (raw, exited) :: rest => (raw, exited, rest)
  end.

(** Flask's [current_app.config] and the other ambient values read by
    [run_report]. *)
Record AppConfig := mkAppConfig {
  exec_prefix : string;
  output_dir : string;
  template_dir : string;
  PY_TEMPLATE_BASE_DIR : string;
  PY_TEMPLATE_SUBDIR : string;
  DEFAULT_MAILFROM : string;
  NOTEBOOKER_DISABLE_GIT : bool;
  serializer_cls_name : string;
  serializer_cmdline_args : list string
}.

(** What the outside world decides during one call of [run_report]. *)
Record Env := mkEnv {
  app_config : AppConfig;
  uuid4 : string;            (* [str(uuid.uuid4())] *)
  now : Z;                   (* [datetime.datetime.now()] *)
  child : Process;           (* the process [Popen] starts *)
  exited_in_grace : bool;    (* has it exited when polled after [sleep(1)] *)
  thread_progress : nat      (* iterations the monitor thread has completed
                                when [run_report] returns or raises *)
}.

(** Calls made by the submitting thread, in order. *)
Inductive event :=
  | EvSaveCheckStub (job_id : string)
  | EvPopen (command : list string)
  | EvThreadStart (job_id : string)
  | EvWait
  | EvSleep (seconds : Z)
  | EvPoll.

Record World := mkWorld {
  store : Store;
  events : list event;
  logged : list string
}.

Definition on_store {A} (op : M Store A) : M World A :=
  λ w, let '(r, st) := op (store w) in
       (r, {| store := st; events := events w; logged := logged w |}).

Definition emit (e : event) : M World unit :=
  λ w, (inr (), {| store := store w; events := events w ++ [e];
                   logged := logged w |}).

Definition logger_info (line : string) : M World unit :=
  λ w, (inr (), {| store := store w; events := events w;
                   logged := logged w ++ [line] |}).

(** ** Output monitor *)

(** How far a thread has got. *)
Inductive outcome (A : Type) :=
  | Returned (a : A)
  | Raised (e : exn)
  | Running.
Arguments Returned {A} a.
Arguments Raised {A} e.
Arguments Running {A}.

(** The [while True] loop of [_monitor_stderr], run for at most [fuel]
    iterations; [stderr] is the local buffer. *)
Fixpoint monitor_loop (fuel : nat) (job_id : string)
    (reads : list (list Byte.byte * bool)) (stderr : list string) (w : World)
  : outcome string * World :=
  match fuel with
  | O => (Running, w)
  | S fuel' =>
      let '(raw, exited, rest) := next_read reads in
      match Utf8.decode raw with
      | None => (Raised UnicodeDecodeError, w)
      | Some line =>
          if String.eqb line "" && exited then
            match on_store (update_stdout job_id stderr true) w with
            | (inl e, w') => (Raised e, w')
            | (inr _, w') => (Returned (Str.join_empty stderr), w')
            end
          else
            let stderr := stderr ++ [line] in
            match (logger_info line ;;;
                   on_store (update_stdout job_id [line] false)) w with
            | (inl e, w') => (Raised e, w')
            | (inr _, w') => monitor_loop fuel' job_id rest stderr w'
            end
      end
  end.

(** [_monitor_stderr(process, job_id, serializer_cls, serializer_args)]: the
    serializer it builds addresses the same store.  The loop needs one
    iteration per scripted read and one for the read at end of file. *)
Definition _monitor_stderr (process : Process) (job_id : string) (w : World)
  : outcome string * World :=
  monitor_loop (S (length (stderr_reads process))) job_id
    (stderr_reads process) [] w.

(** ** Job launcher and rerun *)

Section Launcher.

(** [json.dumps] of the overrides mapping (standard library). *)
Variable json_dumps : Overrides → string.

(** The [command] list built by [run_report]. *)
Definition build_command (cfg : AppConfig) (job_id report_name
    report_title mailto : string) (overrides : Overrides)
    (hide_code generate_pdf_output prepare_only : bool)
    (scheduler_job_id mailfrom : option string) (n_retries : Z)
  : list string :=
  [ OsPath.join (exec_prefix cfg) ["bin"; "notebooker-cli"];
    "--output-base-dir"; output_dir cfg;
    "--template-base-dir"; template_dir cfg;
    "--py-template-base-dir"; PY_TEMPLATE_BASE_DIR cfg;
    "--py-template-subdir"; PY_TEMPLATE_SUBDIR cfg;
    "--default-mailfrom"; DEFAULT_MAILFROM cfg ]
  ++ (if NOTEBOOKER_DISABLE_GIT cfg then ["--notebooker-disable-git"] else [])
  ++ ["--serializer-cls"; serializer_cls_name cfg]
  ++ serializer_cmdline_args cfg
  ++ [ "execute-notebook";
       "--job-id"; job_id;
       "--report-name"; report_name;
       "--report-title"; report_title;
       "--mailto"; mailto;
       "--overrides-as-json"; json_dumps overrides;
       (if generate_pdf_output then "--pdf-output" else "--no-pdf-output");
       (if hide_code then "--hide-code" else "--show-code");
       "--n-retries"; pretty n_retries ]
  ++ (if prepare_only then ["--prepare-notebook-only"] else [])
  ++ match scheduler_job_id with
     | Some s => ["--scheduler-job-id=" +:+ s]
     | None => []
     end
  ++ match mailfrom with
     | Some m => ["--mailfrom=" +:+ m]
     | None => []
     end.

(** Starting the daemon thread.  Between its start and the end of
    [run_report] the submitting thread writes nothing to the store, so the
    store it leaves is the one reached after the iterations the thread has
    completed by then; what the thread returns or raises is dropped. *)
Definition start_monitor_thread (env : Env) (job_id : string) : M World unit :=
  emit (EvThreadStart job_id) ;;;
  λ w, (inr (), snd (monitor_loop (thread_progress env) job_id
                       (stderr_reads (child env)) [] w)).

(** [p.wait()], and [time.sleep(1); p.poll()]: the value of [p.returncode]
    afterwards. *)
Definition wait_or_poll (env : Env) (run_synchronously : bool)
  : M World (option Z) :=
  if run_synchronously then
    emit EvWait ;;; ret (Some (exit_code (child env)))
  else
    emit (EvSleep 1) ;;; emit EvPoll ;;;
    ret (if exited_in_grace env then Some (exit_code (child env)) else None).

(** Truth value of [p.returncode]. *)
Definition truthy (returncode : option Z) : bool :=
  match returncode with
  | Some c => negb (c =? 0)
  | None => false
  end.

Definition failure_message (c : Z) : string :=
  "The report execution failed with exit code " +:+ pretty c.

Definition run_report (env : Env) (report_name report_title mailto : string)
    (overrides : Overrides) (hide_code generate_pdf_output prepare_only : bool)
    (scheduler_job_id : option string) (run_synchronously : bool)
    (mailfrom : option string) (n_retries : Z) : M World string :=
  let job_id := uuid4 env in
  let job_start_time := now env in
  emit (EvSaveCheckStub job_id) ;;;
  on_store (save_check_stub job_id report_name report_title job_start_time
              SUBMITTED overrides mailto generate_pdf_output hide_code
              scheduler_job_id) ;;;
  let command :=
    build_command (app_config env) job_id report_name report_title mailto
      overrides hide_code generate_pdf_output prepare_only scheduler_job_id
      mailfrom n_retries in
  emit (EvPopen command) ;;;
  start_monitor_thread env job_id ;;;
  returncode <- wait_or_poll env run_synchronously ;;
  match returncode with
  | Some c => if truthy returncode then raise (RuntimeError (failure_message c))
              else ret job_id
  | None => ret job_id
  end.

(** [_rerun_report(job_id, prepare_only, run_synchronously)]; [abort(404)]
    raises an HTTP exception.  The keyword arguments it leaves out take the
    defaults of [run_report]. *)
Definition _rerun_report (env : Env) (job_id : string)
    (prepare_only run_synchronously : bool) : M World string :=
  λ w,
    match get_check_result job_id (store w) with
    | None => raise (HTTPException 404) w
    | Some result =>
        let title := rerun_title (report_title result) in
        run_report env (report_name result) title (mailto result)
          (overrides result) false (generate_pdf_output result) prepare_only
          None run_synchronously None 3 w
    end.

End Launcher.

(** ** Request handlers *)

(** The named tuple [RunReportParams]. *)
Module RunReportParams.
Record t := mk {
  report_title : string;
  mailto : string;
  mailfrom : string;
  generate_pdf_output : bool;
  hide_code : bool;
  scheduler_job_id : option string
}.
End RunReportParams.

(** What a view function returns: [jsonify(body)] alone, or the tuple of it
    with a status code and headers.  The bodies here are flat objects with
    string values. *)
Inductive view_result :=
  | Body (body : list (string * string))
  | BodyStatusHeaders (body : list (string * string)) (status : Z)
      (headers : list (string * string)).

(** [x in ("on", "True")] for the value of a form field, [None] when the
    field is missing. *)
Definition on_or_True (x : option string) : bool :=
  match x with
  | Some v => String.eqb v "on" || String.eqb v "True"
  | None => false
  end.

(** ["\n".join(xs)] *)
Fixpoint join_newline (xs : list string) : string :=
  match xs with
  | [] => ""
  | [x] => x
  | x :: rest => x +:+ String "010" (join_newline rest)
  end.

(** [str(b)] and [str(o)] as the f-strings of the handlers format them. *)
Definition str_bool (b : bool) : string := if b then "True" else "False".

Definition str_optional (o : option string) : string :=
  match o with
  | Some s => s
  | None => "None"
  end.

Section Handlers.

Variable json_dumps : Overrides → string.

(** [notebooker.utils.web.validate_title] and [validate_mailto]: the cleaned
    value and the list of issues as they leave it. *)
Variable validate_title : option string → list string → string * list string.
Variable validate_mailto : option string → list string → string * list string.

(** [notebooker.utils.web.convert_report_name_url_to_path]. *)
Variable convert_report_name_url_to_path : string → string.

(** Flask's [url_for(endpoint, report_name=..., job_id=...)]. *)
Variable url_for : string → string → string → string.

(** How Python prints the request values, the validated parameters and the
    overrides mapping inside the log messages. *)
Variable repr_values : gmap string string → string.
Variable repr_params : RunReportParams.t → string.
Variable repr_overrides : Overrides → string.

Definition validate_run_params (params : gmap string string)
    (issues : list string) : M World (RunReportParams.t * list string) :=
  logger_info ("Validating input params: " +:+ repr_values params) ;;;
  let '(report_title, issues) :=
    validate_title (params !! "report_title") issues in
  let '(mailto, issues) := validate_mailto (params !! "mailto") issues in
  let '(mailfrom, issues) := validate_mailto (params !! "mailfrom") issues in
  let generate_pdf_output := on_or_True (params !! "generate_pdf") in
  let hide_code := on_or_True (params !! "hide_code") in
  let out :=
    RunReportParams.mk report_title mailto mailfrom generate_pdf_output
      hide_code (params !! "scheduler_job_id") in
  logger_info ("Validated params: " +:+ repr_params out) ;;;
  ret (out, issues).

(** [_handle_run_report]; [values] is [request.values].  Only a
    [RuntimeError] is caught. *)
Definition _handle_run_report (env : Env) (values : gmap string string)
    (report_name : string) (overrides_dict : Overrides)
    (issues : list string) : M World view_result :=
  validated <- validate_run_params values issues ;;
  let '(params, issues) := validated in
  match issues with
  | _ :: _ =>
      ret (Body [("status", "Failed"); ("content", join_newline issues)])
  | [] =>
      let report_name := convert_report_name_url_to_path report_name in
      logger_info
        ("Handling run report with parameters report_name=" +:+ report_name
         +:+ " report_title=" +:+ RunReportParams.report_title params
         +:+ "mailto=" +:+ RunReportParams.mailto params
         +:+ " overrides_dict=" +:+ repr_overrides overrides_dict
         +:+ " generate_pdf_output="
         +:+ str_bool (RunReportParams.generate_pdf_output params)
         +:+ " hide_code=" +:+ str_bool (RunReportParams.hide_code params)
         +:+ " scheduler_job_id="
         +:+ str_optional (RunReportParams.scheduler_job_id params)
         +:+ "mailfrom=" +:+ RunReportParams.mailfrom params) ;;;
      λ w,
        match run_report json_dumps env report_name
                (RunReportParams.report_title params)
                (RunReportParams.mailto params) overrides_dict
                (RunReportParams.hide_code params)
                (RunReportParams.generate_pdf_output params) false
                (RunReportParams.scheduler_job_id params) false
                (Some (RunReportParams.mailfrom params)) 3 w with
        | (inr job_id, w') =>
            (inr (BodyStatusHeaders [("id", job_id)] 202
                    [("Location",
                      url_for "pending_results_bp.task_status" report_name
                        job_id)]), w')
        | (inl (RuntimeError msg), w') =>
            (inr (BodyStatusHeaders
                    [("status", "Failed");
                     ("content",
                      "The job failed to initialise. Error: " +:+ msg)]
                    500 []), w')
        | (inl e, w') => (inl e, w')
        end
  end.

(** The view [rerun_report(job_id, report_name)]. *)
Definition rerun_report (env : Env) (job_id report_name : string)
  : M World view_result :=
  new_job_id <- _rerun_report json_dumps env job_id false false ;;
  ret (Body [("results_url",
              url_for "serve_results_bp.task_results" report_name
                new_job_id)]).

End Handlers.

(** ** File system *)

Inductive content :=
  | Text (s : string)
  | Binary (b : list Byte.byte).

(** Calls that changed the file system, in order. *)
Inductive fs_event :=
  | FsMakedirs (path : string)
  | FsWrite (path : string) (c : content).

(** Paths are compared as written.  [dirs] are the existing directories,
    [files] the regular files, [mkdir_fault] the directories whose creation
    the system refuses and the error it gives (no permission, read-only
    file system, ...). *)
Record FileSystem := mkFileSystem {
  dirs : gset string;
  files : gmap string content;
  mkdir_fault : gmap string Errno;
  fs_log : list fs_event
}.

(** The proper ancestors of a path: its prefixes that end before a ["/"],
    the empty one left out. *)
Fixpoint ancestors (p : string) : list string :=
  match p with
  | EmptyString => []
  | String c p' =>
      (if Str.is_slash c then [] else
         if Str.startswith p' "/" then [String c EmptyString] else [])
      ++ map (String c) (ancestors p')
  end.

Global Instance Errno_eq_dec : EqDecision Errno.
Proof. solve_decision. Defined.

(** [os.makedirs(d)]: fails where [d] is empty or exists already, where an
    ancestor is a regular file and where the system refuses; otherwise
    creates [d] and the ancestors that are missing. *)
Definition os_makedirs (d : string) : M FileSystem unit :=
  λ fs,
    if String.eqb d "" then (inl (OSError ENOENT), fs)
    else if bool_decide (d ∈ dirs fs) || bool_decide (d ∈ dom (files fs))
    then (inl (OSError EEXIST), fs)
    else if existsb (λ a, bool_decide (a ∈ dom (files fs))) (ancestors d)
    then (inl (OSError ENOTDIR), fs)
    else match mkdir_fault fs !! d with
         | Some e => (inl (OSError e), fs)
         | None =>
             (inr (), {| dirs := dirs fs ∪ {[d]} ∪ list_to_set (ancestors d);
                         files := files fs;
                         mkdir_fault := mkdir_fault fs;
                         fs_log := fs_log fs ++ [FsMakedirs d] |})
         end.

(** [with open(path, mode) as f: f.write(c)], for the modes ["w"] and
    ["wb"]: the directory of [path] must exist (the empty one is the current
    directory) and [path] must not be a directory. *)
Definition os_write_file (path : string) (c : content) : M FileSystem unit :=
  λ fs,
    let parent := OsPath.dirname path in
    if bool_decide (path ∈ dirs fs) then (inl (OSError EISDIR), fs)
    else if String.eqb parent "" || bool_decide (parent ∈ dirs fs)
    then (inr (), {| dirs := dirs fs;
                     files := <[path := c]> (files fs);
                     mkdir_fault := mkdir_fault fs;
                     fs_log := fs_log fs ++ [FsWrite path c] |})
    else if bool_decide (parent ∈ dom (files fs))
    then (inl (OSError ENOTDIR), fs)
    else (inl (OSError ENOENT), fs).

(** ** Snapshot exporter *)

Definition _create_dirs_if_not_present (filename : string) : M FileSystem unit :=
  λ fs,
    match os_makedirs (OsPath.dirname filename) fs with
    | (inl (OSError errno), fs') =>
        if bool_decide (errno ≠ EEXIST) then (inl (OSError errno), fs')
        else (inr (), fs')
    | r => r
    end.

(** The [override_str] of [_write_notebook_html]. *)
Definition override_str (o : Overrides) : string :=
  Str.join_empty (map (λ '(x, y), x +:+ "_" +:+ format_value y) o).

Definition _write_notebook_html (result : JobRecord) (directory : string)
  : M FileSystem unit :=
  let save_file_name := override_str (overrides result) +:+ ".html" in
  let save_file_path := OsPath.join directory [save_file_name] in
  _create_dirs_if_not_present save_file_path ;;;
  os_write_file save_file_path (Text (raw_html result)).

Fixpoint write_outputs (outputs : list (string * list Byte.byte))
    (directory : string) : M FileSystem unit :=
  match outputs with
  | [] => ret ()
  | (path, output) :: rest =>
      let output_path := OsPath.join directory [path] in
      _create_dirs_if_not_present output_path ;;;
      os_write_file output_path (Binary output) ;;;
      write_outputs rest directory
  end.

Definition _write_notebook_outputs (result : JobRecord) (directory : string)
  : M FileSystem unit :=
  write_outputs (raw_html_resources_outputs result) directory.

Fixpoint _write_results (results : list JobRecord) (directory : string)
  : M FileSystem unit :=
  match results with
  | [] => ret ()
  | result :: rest =>
      _write_notebook_html result directory ;;;
      _write_notebook_outputs result directory ;;;
      _write_results rest directory
  end.

Section Snapshot.

(** [notebooker.utils.results.get_latest_successful_job_results_all_params]
    applied to the serializer built from the configuration: the records to
    export, in the order the query yields them. *)
Variable get_latest_successful_job_results_all_params :
  string → Store → list JobRecord.

(** [config] contributes [OUTPUT_DIR] and the store its serializer settings
    address. *)
Definition snap_latest_successful_notebooks (OUTPUT_DIR : string)
    (st : Store) (report_name : string) : M FileSystem unit :=
  let report_suffix := Str.last_item (Str.split_slash report_name) in
  let report_directory := OsPath.join OUTPUT_DIR [report_suffix] in
  let results := get_latest_successful_job_results_all_params report_name st in
  _write_results results report_directory.

End Snapshot.

(** ** Vocabulary of the statements *)

(** The read on which the monitor loop stops: nothing read and the process
    has exited. *)
Definition terminator (rd : list Byte.byte * bool) : bool :=
  match rd with
  | ([], exited) => exited
  | _ => false
  end.

(** The raw lines read before the first stopping read. *)
Fixpoint lines_until_exit (reads : list (list Byte.byte * bool))
  : list (list Byte.byte) :=
  match reads with
  | [] => []
  | rd :: rest => if terminator rd then [] else fst rd :: lines_until_exit rest
  end.

Definition decodable (raw : list Byte.byte) : Prop :=
  Utf8.well_formed raw = true.

Definition text (raw : list Byte.byte) : string := string_of_list_byte raw.

(** The stdout sequence the store holds for a job. *)
Definition stored_stdout (job : string) (w : World) : option (list string) :=
  stdout <$> records (store w) !! job.

(** The record [save_check_stub] is asked to create by [run_report]. *)
Definition stub_record (env : Env) (report_name report_title mailto : string)
    (overrides : Overrides) (hide_code generate_pdf_output : bool)
    (scheduler_job_id : option string) : JobRecord :=
  {| job_id := uuid4 env; report_name := report_name;
     report_title := report_title; overrides := overrides;
     status := SUBMITTED; job_start_time := now env;
     mailto := mailto; mailfrom := None;
     generate_pdf_output := generate_pdf_output; hide_code := hide_code;
     scheduler_job_id := scheduler_job_id; stdout := []; raw_html := "";
     raw_html_resources_outputs := [] |}.

(** The outcome the store gives to its next write call. *)
Definition head_outcome (st : Store) : write_outcome := hd Applied (faults st).

(** The value of [p.returncode] when [run_report] tests it. *)
Definition observed_returncode (env : Env) (run_synchronously : bool)
  : option Z :=
  if run_synchronously || exited_in_grace env
  then Some (exit_code (child env))
  else None.

(** What [run_report] returns or raises once the stub has been written. *)
Definition launch_result (env : Env) (run_synchronously : bool)
  : exn + string :=
  match observed_returncode env run_synchronously with
  | Some c =>
      if c =? 0 then inr (uuid4 env)
      else inl (RuntimeError
                  ("The report execution failed with exit code " +:+ pretty c))
  | None => inr (uuid4 env)
  end.

(** The calls by which [run_report] waits for the child. *)
Definition wait_events (run_synchronously : bool) : list event :=
  if run_synchronously then [EvWait] else [EvSleep 1; EvPoll].

(** The arguments of the command line that come from the configuration,
    those before the [execute-notebook] subcommand. *)
Definition config_args (cfg : AppConfig) : list string :=
  [ OsPath.join (exec_prefix cfg) ["bin"; "notebooker-cli"];
    "--output-base-dir"; output_dir cfg;
    "--template-base-dir"; template_dir cfg;
    "--py-template-base-dir"; PY_TEMPLATE_BASE_DIR cfg;
    "--py-template-subdir"; PY_TEMPLATE_SUBDIR cfg;
    "--default-mailfrom"; DEFAULT_MAILFROM cfg ]
  ++ (if NOTEBOOKER_DISABLE_GIT cfg then ["--notebooker-disable-git"] else [])
  ++ ["--serializer-cls"; serializer_cls_name cfg]
  ++ serializer_cmdline_args cfg.

(** The label of the spec: the concatenation, in insertion order, of
    [name_value] for each pair of the overrides. *)
Fixpoint label_of (o : Overrides) : string :=
  match o with
  | [] => ""
  | (name, value) :: rest =>
      name +:+ "_" +:+ format_value value +:+ label_of rest
  end.

(** Writing one file of an export: its directories, then its content. *)
Definition write_step (step : string * content) : M FileSystem unit :=
  _create_dirs_if_not_present (fst step) ;;; os_write_file (fst step) (snd step).

(** The files one record contributes, in the order they are written. *)
Definition export_steps_of (directory : string) (r : JobRecord)
  : list (string * content) :=
  (OsPath.join directory [override_str (overrides r) +:+ ".html"],
   Text (raw_html r))
  :: map (λ '(path, output), (OsPath.join directory [path], Binary output))
       (raw_html_resources_outputs r).

Definition export_steps (directory : string) (results : list JobRecord)
  : list (string * content) :=
  flat_map (export_steps_of directory) results.

Fixpoint run_steps (steps : list (string * content)) : M FileSystem unit :=
  match steps with
  | [] => ret ()
  | step :: rest => write_step step ;;; run_steps rest
  end.

(** The effect of one file write on the regular files. *)
Definition put_step (m : gmap string content) (step : string * content)
  : gmap string content :=
  <[fst step := snd step]> m.

(** No path is both a directory and a regular file. *)
Definition well_formed_fs (fs : FileSystem) : Prop :=
  ∀ p, p ∈ dirs fs → files fs !! p = None.

(** The files written according to a log, in order. *)
Definition writes_of (l : list fs_event) : list (string * content) :=
  omap (λ ev, match ev with
              | FsWrite path c => Some (path, c)
              | FsMakedirs _ => None
              end) l.

(** What the validators make of the request values: the parameters and the
    issues, without the logging around them. *)
Definition validated
    (validate_title validate_mailto :
       option string → list string → string * list string)
    (params : gmap string string) (issues : list string)
  : RunReportParams.t * list string :=
  let t := validate_title (params !! "report_title") issues in
  let m := validate_mailto (params !! "mailto") (snd t) in
  let f := validate_mailto (params !! "mailfrom") (snd m) in
  (RunReportParams.mk (fst t) (fst m) (fst f)
     (on_or_True (params !! "generate_pdf"))
     (on_or_True (params !! "hide_code"))
     (params !! "scheduler_job_id"),
   snd f).

(** ** Sample data for the concrete runs *)

Definition line_a : list Byte.byte := [Byte.x61; Byte.x0a].
Definition line_b : list Byte.byte := [Byte.x62; Byte.x0a].
Definition line_no_newline : list Byte.byte := [Byte.x63].
Definition line_bad : list Byte.byte := [Byte.xff; Byte.x0a].

Definition sample_record (job : string) (title : string) : JobRecord :=
  {| job_id := job; report_name := "sales/eu"; report_title := title;
     overrides := [("q", PyStr "1")]; status := SUBMITTED;
     job_start_time := 0; mailto := "ops@example.org";
     mailfrom := Some "desk@example.org";
     generate_pdf_output := true; hide_code := true;
     scheduler_job_id := Some "nightly"; stdout := []; raw_html := "";
     raw_html_resources_outputs := [] |}.

Definition sample_world (job : string) (fs : list write_outcome) : World :=
  {| store := {| records := {[ job := sample_record job "Q1" ]};
                 faults := fs |};
     events := []; logged := [] |}.

Definition sample_config : AppConfig :=
  {| exec_prefix := "/usr"; output_dir := "/out"; template_dir := "/tpl";
     PY_TEMPLATE_BASE_DIR := "/py"; PY_TEMPLATE_SUBDIR := "templates";
     DEFAULT_MAILFROM := "notebooker@example.org";
     NOTEBOOKER_DISABLE_GIT := true; serializer_cls_name := "PyMongo";
     serializer_cmdline_args := ["--mongo-host"; "db"] |}.

(** A child that writes two lines and exits with [rc]; the monitor has done
    one iteration when the submitting thread finishes. *)
Definition sample_env (rc : Z) (in_grace : bool) : Env :=
  {| app_config := sample_config; uuid4 := "uuid-2"; now := 1700000000;
     child := {| stderr_reads := [(line_a, false); (line_b, false)];
                 exit_code := rc |};
     exited_in_grace := in_grace; thread_progress := 1 |}.

Definition sample_json_dumps (o : Overrides) : string := "{}".

Definition eu_record : JobRecord :=
  {| job_id := "job-eu"; report_name := "sales/eu"; report_title := "EU";
     overrides := [("region", PyStr "EU"); ("year", PyStr "2024")];
     status := DONE; job_start_time := 1700000000;
     mailto := "ops@example.org"; mailfrom := None;
     generate_pdf_output := false; hide_code := false;
     scheduler_job_id := None; stdout := [];
     raw_html := "<html>EU 2024</html>";
     raw_html_resources_outputs := [("img/plot.png", [Byte.x89; Byte.x50])] |}.

Definition eu_store : Store :=
  {| records := {[ "job-eu" := eu_record ]}; faults := [] |}.

(** A query for the samples: the finished records of the report. *)
Definition sample_query (name : string) (st : Store) : list JobRecord :=
  List.filter
    (λ r, String.eqb (report_name r) name
          && match status r with DONE => true | _ => false end)
    (map snd (map_to_list (records st))).

Definition empty_fs : FileSystem :=
  {| dirs := ∅; files := ∅; mkdir_fault := ∅; fs_log := [] |}.

(** A file system in which the directory of the EU report is there, and one
    in which it cannot be created. *)
Definition fs_with_eu_dir : FileSystem :=
  {| dirs := {[ "out/eu" ]}; files := ∅; mkdir_fault := ∅; fs_log := [] |}.

Definition fs_denied : FileSystem :=
  {| dirs := ∅; files := ∅; mkdir_fault := {[ "out/eu" := EACCES ]};
     fs_log := [] |}.

(** Two finished records of one report whose overrides differ and whose
    labels are the same. *)
Definition clash_first : JobRecord :=
  {| job_id := "job-1"; report_name := "sales/eu"; report_title := "first";
     overrides := [("a", PyStr "b_c")];
     status := DONE; job_start_time := 1; mailto := ""; mailfrom := None;
     generate_pdf_output := false; hide_code := false;
     scheduler_job_id := None; stdout := []; raw_html := "<p>first</p>";
     raw_html_resources_outputs := [] |}.

Definition clash_second : JobRecord :=
  {| job_id := "job-2"; report_name := "sales/eu"; report_title := "second";
     overrides := [("a_b", PyStr "c")];
     status := DONE; job_start_time := 2; mailto := ""; mailfrom := None;
     generate_pdf_output := false; hide_code := false;
     scheduler_job_id := None; stdout := []; raw_html := "<p>second</p>";
     raw_html_resources_outputs := [("/tmp/plot.png", [Byte.x01])] |}.

Definition clash_query (name : string) (st : Store) : list JobRecord :=
  [clash_first; clash_second].

(** A file system in which a regular file sits where the directory of the EU
    report should be. *)
Definition fs_file_in_the_way : FileSystem :=
  {| dirs := {[ "out" ]}; files := {[ "out/eu" := Text "not a directory" ]};
     mkdir_fault := ∅; fs_log := [] |}.

(** Validators for the samples: an empty title is an issue, addresses are
    taken as they are. *)
Definition sample_validate_title (title : option string)
    (issues : list string) : string * list string :=
  match title with
  | Some (String c t) => (String c t, issues)
  | _ => ("", issues ++ ["Report title must not be empty"])
  end.

Definition sample_validate_mailto (address : option string)
    (issues : list string) : string * list string :=
  (default "" address, issues).

Definition sample_url_for (endpoint name job : string) : string :=
  "/" +:+ endpoint +:+ "/" +:+ name +:+ "/" +:+ job.

Definition sample_repr {A} (x : A) : string := "...".

Definition sample_values : gmap string string :=
  {[ "report_title" := "Q1"; "mailto" := "ops@example.org";
     "hide_code" := "on"; "generate_pdf" := "true" ]}.

(** A file system with the directory of the EU report in which the
    directory of its images cannot be made. *)
Definition fs_denied_img : FileSystem :=
  {| dirs := {[ "out/eu" ]}; files := ∅;
     mkdir_fault := {[ "out/eu/img" := EACCES ]}; fs_log := [] |}.

(** * Properties *)

(** ** Strings *)


Lemma prefix_app_self (p t : string) : String.prefix p (p +:+ t) = true.
Proof.
  induction p as [|c p IH]; simpl; [by destruct t|].
  destruct (Ascii.ascii_dec c c); [exact IH | congruence].
Qed.


Lemma append_cons (x : ascii) (a b : string) :
  String x a +:+ b = String x (a +:+ b).
Proof. reflexivity. Qed.

Lemma append_assoc (a b c : string) : (a +:+ b) +:+ c = a +:+ (b +:+ c).
Proof.
  induction a as [|x a IH]; [done|]. by rewrite !append_cons, IH.
Qed.

Lemma append_nil_r (a : string) : a +:+ "" = a.
Proof.
  induction a as [|x a IH]; [done|]. by rewrite append_cons, IH.
Qed.



(** ** The primitives on concrete inputs *)

Example dirname_nested : OsPath.dirname "out/eu/region_EU.html" = "out/eu".
Proof. reflexivity. Qed.

Example dirname_root : OsPath.dirname "/x" = "/".
Proof. reflexivity. Qed.

Example dirname_plain : OsPath.dirname "x.html" = "".
Proof. reflexivity. Qed.

Example dirname_double_slash : OsPath.dirname "out//x.html" = "out".
Proof. reflexivity. Qed.

Example join_three :
  OsPath.join "/usr" ["bin"; "notebooker-cli"] = "/usr/bin/notebooker-cli".
Proof. reflexivity. Qed.

Example join_absolute : OsPath.join "out/eu" ["/tmp/x.html"] = "/tmp/x.html".
Proof. reflexivity. Qed.

Example join_trailing_slash : OsPath.join "out/" ["eu"] = "out/eu".
Proof. reflexivity. Qed.

Example split_last : Str.last_item (Str.split_slash "sales/eu") = "eu".
Proof. reflexivity. Qed.

Example split_trailing : Str.split_slash "sales/" = ["sales"; ""].
Proof. reflexivity. Qed.

Example ancestors_nested : ancestors "out/eu/img" = ["out"; "out/eu"].
Proof. reflexivity. Qed.

Example decode_ascii : Utf8.decode line_a = Some (text line_a).
Proof. reflexivity. Qed.

Example decode_two_bytes :
  Utf8.decode [Byte.xc3; Byte.xa9] = Some (text [Byte.xc3; Byte.xa9]).
Proof. reflexivity. Qed.

Example decode_invalid_start : Utf8.decode [Byte.xff; Byte.x0a] = None.
Proof. reflexivity. Qed.

Example decode_overlong : Utf8.decode [Byte.xc0; Byte.x80] = None.
Proof. reflexivity. Qed.

Example decode_surrogate : Utf8.decode [Byte.xed; Byte.xa0; Byte.x80] = None.
Proof. reflexivity. Qed.

Example decode_truncated : Utf8.decode [Byte.xe2; Byte.x82] = None.
Proof. reflexivity. Qed.

Example format_values :
  map format_value [PyStr "EU"; PyInt 2024; PyInt (-3); PyBool true; PyNone]
  = ["EU"; "2024"; "-3"; "True"; "None"].
Proof. reflexivity. Qed.

Example override_str_eu :
  override_str [("region", PyStr "EU"); ("year", PyStr "2024")]
  = "region_EUyear_2024".
Proof. reflexivity. Qed.

(** ** Rerun title *)

Example rerun_title_fresh : rerun_title "Q1" = "Rerun of Q1".
Proof. reflexivity. Qed.

Example rerun_title_again : rerun_title "Rerun of Q1" = "Rerun of Q1".
Proof. reflexivity. Qed.

Lemma rerun_title_startswith (t : string) :
  Str.startswith (rerun_title t) rerun_prefix = true.
Proof.
  unfold rerun_title. destruct (Str.startswith t rerun_prefix) eqn:E; [done|].
  apply prefix_app_self.
Qed.

Lemma rerun_title_fixed (t : string) :
  Str.startswith t rerun_prefix = true → rerun_title t = t.
Proof. intros E. unfold rerun_title. by rewrite E. Qed.


(** ** Result store *)

Lemma update_stdout_run (job : string) (ls : list string) (rep : bool)
    (st : Store) :
  update_stdout job ls rep st =
  match head_outcome st with
  | Unreachable =>
      (inl PersistenceError,
       {| records := records st; faults := tail (faults st) |})
  | AppendLost =>
      (inr (),
       {| records := if rep then alter (set_stdout (λ _, ls)) job (records st)
                     else records st;
          faults := tail (faults st) |})
  | Applied =>
      (inr (),
       {| records := alter (set_stdout (λ old, if rep then ls else old ++ ls))
                       job (records st);
          faults := tail (faults st) |})
  end.
Proof.
  destruct st as [recs [|o fs]]; [reflexivity|].
  destruct o, rep; reflexivity.
Qed.

Lemma save_check_stub_run (j rn rt : string) (t : Z) (s : JobStatus)
    (o : Overrides) (mt : string) (pdf hc : bool) (sj : option string)
    (st : Store) :
  save_check_stub j rn rt t s o mt pdf hc sj st =
  match head_outcome st with
  | Unreachable =>
      (inl PersistenceError,
       {| records := records st; faults := tail (faults st) |})
  | _ =>
      (inr (),
       {| records :=
            <[j := {| job_id := j; report_name := rn; report_title := rt;
                      overrides := o; status := s; job_start_time := t;
                      mailto := mt; mailfrom := None;
                      generate_pdf_output := pdf; hide_code := hc;
                      scheduler_job_id := sj; stdout := []; raw_html := "";
                      raw_html_resources_outputs := [] |}]> (records st);
          faults := tail (faults st) |})
  end.
Proof.
  destruct st as [recs [|w fs]]; [reflexivity|].
  destruct w; reflexivity.
Qed.

Lemma alter_set_stdout_absorb (v : list string) (g : list string → list string)
    (job : string) (m : gmap string JobRecord) :
  alter (set_stdout (λ _, v)) job (alter (set_stdout g) job m)
  = alter (set_stdout (λ _, v)) job m.
Proof.
  apply map_eq. intros i. destruct (decide (job = i)) as [<-|Hne].
  - rewrite !lookup_alter_eq. by destruct (m !! job).
  - by rewrite !lookup_alter_ne.
Qed.

Lemma head_outcome_reachable (st : Store) :
  Unreachable ∉ faults st → head_outcome st ≠ Unreachable.
Proof.
  unfold head_outcome. destruct (faults st) as [|o fs]; [done|].
  simpl. intros Hn ->. apply Hn. left.
Qed.

Lemma tail_reachable (fs : list write_outcome) :
  Unreachable ∉ fs → Unreachable ∉ tail fs.
Proof. destruct fs as [|o fs]; [done|]. simpl. intros Hn Hin. apply Hn. by right. Qed.

(** ** Decoding *)

Lemma decode_decodable (raw : list Byte.byte) :
  decodable raw → Utf8.decode raw = Some (text raw).
Proof. unfold decodable, Utf8.decode. by intros ->. Qed.

Lemma decode_undecodable (raw : list Byte.byte) :
  Utf8.well_formed raw = false → Utf8.decode raw = None.
Proof. unfold Utf8.decode. by intros ->. Qed.

Lemma decode_text (raw : list Byte.byte) (line : string) :
  Utf8.decode raw = Some line → line = text raw ∧ decodable raw.
Proof.
  unfold Utf8.decode, decodable.
  destruct (Utf8.well_formed raw); [|done]. by intros [= <-].
Qed.

Lemma text_empty (raw : list Byte.byte) :
  String.eqb (text raw) "" = match raw with [] => true | _ => false end.
Proof. by destruct raw. Qed.

Lemma stop_test (raw : list Byte.byte) (exited : bool) :
  String.eqb (text raw) "" && exited = terminator (raw, exited).
Proof. rewrite text_empty. by destruct raw. Qed.

(** ** Output monitor *)

Lemma monitor_loop_step (fuel : nat) (job : string) (raw : list Byte.byte)
    (exited : bool) (rest : list (list Byte.byte * bool)) (buf : list string)
    (w : World) :
  monitor_loop (S fuel) job ((raw, exited) :: rest) buf w =
  match Utf8.decode raw with
  | None => (Raised UnicodeDecodeError, w)
  | Some line =>
      if String.eqb line "" && exited then
        match on_store (update_stdout job buf true) w with
        | (inl e, w') => (Raised e, w')
        | (inr _, w') => (Returned (Str.join_empty buf), w')
        end
      else
        match (logger_info line ;;;
               on_store (update_stdout job [line] false)) w with
        | (inl e, w') => (Raised e, w')
        | (inr _, w') => monitor_loop fuel job rest (buf ++ [line]) w'
        end
  end.
Proof. reflexivity. Qed.

Lemma monitor_loop_eof (fuel : nat) (job : string) (buf : list string)
    (w : World) :
  monitor_loop (S fuel) job [] buf w =
  monitor_loop (S fuel) job [([], true)] buf w.
Proof. reflexivity. Qed.

(** The world after logging a line and asking the store to append it. *)
Lemma log_and_append_run (job line : string) (w : World) :
  (logger_info line ;;; on_store (update_stdout job [line] false)) w =
  let w' := λ recs,
    {| store := {| records := recs; faults := tail (faults (store w)) |};
       events := events w; logged := logged w ++ [line] |} in
  match head_outcome (store w) with
  | Unreachable => (inl PersistenceError, w' (records (store w)))
  | AppendLost => (inr (), w' (records (store w)))
  | Applied =>
      (inr (), w' (alter (set_stdout (λ old, old ++ [line])) job
                     (records (store w))))
  end.
Proof.
  unfold bind, logger_info, on_store. simpl store.
  rewrite update_stdout_run. by destruct (head_outcome (store w)).
Qed.

(** A run in which every line decodes and no write is refused ends with the
    final replace: the stored sequence is the buffer, whatever the appends
    left in the store. *)
Lemma monitor_loop_completes (reads : list (list Byte.byte * bool)) :
  ∀ (fuel : nat) (job : string) (buf : list string) (w : World),
    (length reads < fuel)%nat →
    Forall decodable (lines_until_exit reads) →
    Unreachable ∉ faults (store w) →
    ∃ w',
      monitor_loop fuel job reads buf w
      = (Returned (Str.join_empty (buf ++ map text (lines_until_exit reads))),
         w')
      ∧ records (store w')
        = alter (set_stdout (λ _, buf ++ map text (lines_until_exit reads)))
            job (records (store w))
      ∧ faults (store w')
        = drop (S (length (lines_until_exit reads))) (faults (store w))
      ∧ events w' = events w
      ∧ logged w' = logged w ++ map text (lines_until_exit reads).
Proof.
  assert (Hstop : ∀ fuel job rest buf w,
    Unreachable ∉ faults (store w) →
    ∃ w', monitor_loop (S fuel) job (([], true) :: rest) buf w
          = (Returned (Str.join_empty buf), w')
      ∧ records (store w')
        = alter (set_stdout (λ _, buf)) job (records (store w))
      ∧ faults (store w') = drop 1 (faults (store w))
      ∧ events w' = events w ∧ logged w' = logged w).
  { intros fuel job rest buf w Hf. simpl. unfold on_store.
    rewrite update_stdout_run.
    pose proof (head_outcome_reachable _ Hf) as Hh.
    destruct (head_outcome (store w)); [| |done];
      (eexists; split; [reflexivity|]; simpl;
       repeat split; by destruct (faults (store w))). }
  induction reads as [|[raw exited] rest IH]; intros fuel job buf w Hlen Hdec Hf.
  - destruct fuel as [|fuel]; [simpl in Hlen; lia|].
    destruct (Hstop fuel job [] buf w Hf) as (w' & Hrun & Hrec & Hfl & Hev & Hlog).
    exists w'. simpl lines_until_exit. simpl map. rewrite !app_nil_r.
    repeat split; try done.
  - destruct fuel as [|fuel]; [simpl in Hlen; lia|].
    change (lines_until_exit ((raw, exited) :: rest))
      with (if terminator (raw, exited) then []
            else raw :: lines_until_exit rest) in *.
    destruct (terminator (raw, exited)) eqn:Ht.
    + assert (raw = [] ∧ exited = true) as [-> ->]
        by (destruct raw; simpl in Ht; [by subst|done]).
      destruct (Hstop fuel job rest buf w Hf) as (w' & Hrun & Hrec & Hfl & Hev & Hlog).
      exists w'. simpl map. rewrite !app_nil_r. repeat split; done.
    + apply Forall_cons in Hdec as [Hraw Hrest].
      rewrite monitor_loop_step.
      rewrite (decode_decodable _ Hraw), stop_test, Ht.
      unfold bind, logger_info, on_store. simpl store.
      rewrite update_stdout_run.
      pose proof (head_outcome_reachable _ Hf) as Hh.
      pose proof (tail_reachable _ Hf) as Hf'.
      simpl in Hlen.
      destruct (head_outcome (store w)); [| |done].
      * edestruct (IH fuel job (buf ++ [text raw])) as (w' & Hrun & Hrec & Hfl & Hev & Hlog);
          [| exact Hrest | | exists w'; rewrite Hrun; simpl in *].
        { lia. } { exact Hf'. }
        rewrite <- !app_assoc in *. simpl.
        rewrite Hrec, Hfl, Hev, Hlog, alter_set_stdout_absorb.
        repeat split; try done. by destruct (faults (store w)).
      * edestruct (IH fuel job (buf ++ [text raw])) as (w' & Hrun & Hrec & Hfl & Hev & Hlog);
          [| exact Hrest | | exists w'; rewrite Hrun; simpl in *].
        { lia. } { exact Hf'. }
        rewrite <- !app_assoc in *. simpl.
        rewrite Hrec, Hfl, Hev, Hlog.
        repeat split; try done. by destruct (faults (store w)).
Qed.


(** A loop that returned has read and logged every line before the first
    stopping read, and only those: it did not stop earlier. *)
Lemma monitor_loop_returned (reads : list (list Byte.byte * bool)) :
  ∀ (fuel : nat) (job : string) (buf : list string) (w w' : World)
    (s : string),
    monitor_loop fuel job reads buf w = (Returned s, w') →
    s = Str.join_empty (buf ++ map text (lines_until_exit reads))
    ∧ logged w' = logged w ++ map text (lines_until_exit reads)
    ∧ Forall decodable (lines_until_exit reads).
Proof.
  assert (Hfinal : ∀ job buf w w' (s : string),
    match on_store (update_stdout job buf true) w with
    | (inl e, w1) => (Raised e, w1)
    | (inr _, w1) => (Returned (Str.join_empty buf), w1)
    end = (Returned s, w') →
    s = Str.join_empty buf ∧ logged w' = logged w).
  { intros job buf w w' s. unfold on_store. rewrite update_stdout_run.
    destruct (head_outcome (store w)); intros [= <- <-]; done. }
  induction reads as [|[raw exited] rest IH]; intros fuel job buf w w' s Hrun;
    (destruct fuel as [|fuel]; [done|]).
  - rewrite monitor_loop_eof, monitor_loop_step in Hrun. simpl in Hrun.
    apply Hfinal in Hrun as [-> ->]. simpl. rewrite !app_nil_r. by split.
  - rewrite monitor_loop_step in Hrun.
    change (lines_until_exit ((raw, exited) :: rest))
      with (if terminator (raw, exited) then []
            else raw :: lines_until_exit rest).
    destruct (Utf8.decode raw) as [line|] eqn:Hd; [|done].
    apply decode_text in Hd as [-> Hraw].
    rewrite stop_test in Hrun.
    destruct (terminator (raw, exited)).
    + apply Hfinal in Hrun as [-> ->]. simpl. rewrite !app_nil_r. by split.
    + rewrite log_and_append_run in Hrun.
      destruct (head_outcome (store w)); simpl in Hrun; [| |done];
        apply IH in Hrun as (-> & -> & Hrest); simpl;
        rewrite <- !app_assoc; repeat split; try done;
        by apply Forall_cons.
Qed.

Lemma lines_until_exit_app (pre rest : list (list Byte.byte * bool)) :
  Forall (λ rd, terminator rd = false) pre →
  lines_until_exit (pre ++ rest) = map fst pre ++ lines_until_exit rest.
Proof.
  induction 1 as [|rd pre Hrd _ IH]; [done|].
  simpl. by rewrite Hrd, IH.
Qed.

Lemma monitor_completes (p : Process) (job : string) (w : World) :
  Forall decodable (lines_until_exit (stderr_reads p)) →
  Unreachable ∉ faults (store w) →
  ∃ w',
    _monitor_stderr p job w
    = (Returned (Str.join_empty (map text (lines_until_exit (stderr_reads p)))),
       w')
    ∧ records (store w')
      = alter (set_stdout (λ _, map text (lines_until_exit (stderr_reads p))))
          job (records (store w))
    ∧ events w' = events w
    ∧ logged w' = logged w ++ map text (lines_until_exit (stderr_reads p)).
Proof.
  intros Hdec Hf. unfold _monitor_stderr.
  destruct (monitor_loop_completes (stderr_reads p)
              (S (length (stderr_reads p))) job [] w)
    as (w' & Hrun & Hrec & _ & Hev & Hlog); [lia | done | done |].
  exists w'. simpl in *. by rewrite Hrun, Hrec, Hev, Hlog.
Qed.

(** C2 (as amended).  When every line read decodes and the store refuses no
    write, the monitor returns after the final replace, and the stdout stored
    for the job is exactly the sequence of lines it read, in order,
    whichever of the incremental appends were applied or lost and whatever
    the record held before; no other record changes. *)
Theorem monitor_final_replace (p : Process) (job : string) (w : World)
    (r : JobRecord) :
  records (store w) !! job = Some r →
  Forall decodable (lines_until_exit (stderr_reads p)) →
  Unreachable ∉ faults (store w) →
  ∃ w',
    _monitor_stderr p job w
    = (Returned (Str.join_empty (map text (lines_until_exit (stderr_reads p)))),
       w')
    ∧ stored_stdout job w'
      = Some (map text (lines_until_exit (stderr_reads p)))
    ∧ records (store w') !! job
      = Some (set_stdout (λ _, map text (lines_until_exit (stderr_reads p))) r)
    ∧ ∀ j, j ≠ job → records (store w') !! j = records (store w) !! j.
Proof.
  intros Hr Hdec Hf.
  destruct (monitor_completes p job w Hdec Hf) as (w' & Hrun & Hrec & _ & _).
  exists w'. unfold stored_stdout. rewrite Hrun, Hrec, lookup_alter_eq, Hr.
  repeat split; try done.
  intros j Hj. by rewrite lookup_alter_ne.
Qed.

Lemma monitor_final_replace_witness :
  ∃ w',
    _monitor_stderr (mkProcess [(line_a, false); ([], false); (line_b, true)] 0)
      "j" (sample_world "j" [AppendLost; Applied; AppendLost])
    = (Returned (Str.join_empty [text line_a; ""; text line_b]), w')
    ∧ stored_stdout "j" w' = Some [text line_a; ""; text line_b].
Proof.
  destruct (monitor_final_replace
              (mkProcess [(line_a, false); ([], false); (line_b, true)] 0)
              "j" (sample_world "j" [AppendLost; Applied; AppendLost])
              (sample_record "j" "Q1"))
    as (w' & Hrun & Hout & _).
  - reflexivity.
  - repeat constructor.
  - simpl. rewrite !not_elem_of_cons. repeat split; try done. apply not_elem_of_nil.
  - exists w'. split; [exact Hrun | exact Hout].
Defined.

(** C2 fails as stated: when the store refuses an incremental append, or when
    a line of the stream does not decode, the exception ends the monitor, the
    final replace never happens and the stored sequence is not the sequence
    of lines of the stream. *)
Lemma monitor_final_replace_skipped_after_refused_append :
  let p := mkProcess [(line_a, false); (line_b, false)] 0 in
  let w := sample_world "j" [Applied; Unreachable] in
  let p' := mkProcess [(line_a, false); (line_bad, false); (line_b, false)] 0 in
  let w' := sample_world "j" [] in
  (map text (lines_until_exit (stderr_reads p)) = [text line_a; text line_b]
   ∧ Forall decodable (lines_until_exit (stderr_reads p))
   ∧ fst (_monitor_stderr p "j" w) = Raised PersistenceError
   ∧ stored_stdout "j" (snd (_monitor_stderr p "j" w)) = Some [text line_a]
   ∧ stored_stdout "j" (snd (_monitor_stderr p "j" w))
     ≠ Some (map text (lines_until_exit (stderr_reads p))))
  ∧ (lines_until_exit (stderr_reads p') = [line_a; line_bad; line_b]
     ∧ fst (_monitor_stderr p' "j" w') = Raised UnicodeDecodeError
     ∧ stored_stdout "j" (snd (_monitor_stderr p' "j" w'))
       = Some [text line_a]).
Proof.
  repeat split; try reflexivity.
  - repeat constructor.
  - vm_compute. discriminate.
Qed.




(** C10.  An empty read while the process is still running does not stop the
    loop: the empty string is logged, buffered and sent to the store like any
    line, the loop goes on to the stopping read, and the stdout stored at the
    end contains the empty string at the position of that read.  Conversely a
    loop that returned has consumed every read before the first one that is
    empty with the process exited. *)
Theorem monitor_empty_read_while_running (job : string) (w : World) :
  (∀ (pre rest : list (list Byte.byte * bool)) (rc : Z) (r : JobRecord),
     records (store w) !! job = Some r →
     Forall (λ rd, terminator rd = false) pre →
     Forall decodable (map fst pre) →
     Forall decodable (lines_until_exit rest) →
     Unreachable ∉ faults (store w) →
     ∃ w',
       _monitor_stderr (mkProcess (pre ++ ([], false) :: rest) rc) job w
       = (Returned (Str.join_empty
                      (map text (map fst pre) ++ "" ::
                       map text (lines_until_exit rest))), w')
       ∧ stored_stdout job w'
         = Some (map text (map fst pre) ++ "" ::
                 map text (lines_until_exit rest))
       ∧ logged w'
         = logged w ++ map text (map fst pre) ++ "" ::
           map text (lines_until_exit rest))
  ∧ (∀ (p : Process) (s : string) (w' : World),
       _monitor_stderr p job w = (Returned s, w') →
       logged w' = logged w ++ map text (lines_until_exit (stderr_reads p))
       ∧ s = Str.join_empty (map text (lines_until_exit (stderr_reads p)))).
Proof.
  split.
  - intros pre rest rc r Hr Hpre Hdpre Hdrest Hf.
    assert (Hlines : lines_until_exit (pre ++ ([], false) :: rest)
                     = map fst pre ++ [] :: lines_until_exit rest)
      by (by rewrite lines_until_exit_app).
    destruct (monitor_completes
                (mkProcess (pre ++ ([], false) :: rest) rc) job w)
      as (w' & Hrun & Hrec & _ & Hlog); [| done |].
    { simpl. rewrite Hlines. apply Forall_app. split; [done|].
      apply Forall_cons. split; [reflexivity | done]. }
    simpl stderr_reads in *. rewrite Hlines, map_app in *.
    exists w'. unfold stored_stdout.
    by rewrite Hrun, Hrec, Hlog, lookup_alter_eq, Hr.
  - intros p s w' Hrun. unfold _monitor_stderr in Hrun.
    apply monitor_loop_returned in Hrun as (-> & -> & _). done.
Qed.

Lemma monitor_empty_read_while_running_witness :
  (∃ w',
     _monitor_stderr (mkProcess ([(line_a, false)] ++ ([], false) :: []) 0)
       "j" (sample_world "j" [])
     = (Returned (Str.join_empty [text line_a; ""]), w')
     ∧ stored_stdout "j" w' = Some [text line_a; ""]
     ∧ logged w' = [text line_a; ""])
  ∧ logged (snd (_monitor_stderr (mkProcess [([], false); ([], true); (line_b, false)] 0)
                   "j" (sample_world "j" [])))
    = [""].
Proof.
  destruct (monitor_empty_read_while_running "j" (sample_world "j" []))
    as [Hfwd Hback].
  split.
  - apply (Hfwd [(line_a, false)] [] 0 (sample_record "j" "Q1")).
    + reflexivity.
    + repeat constructor.
    + repeat constructor.
    + constructor.
    + apply not_elem_of_nil.
  - eapply (Hback (mkProcess [([], false); ([], true); (line_b, false)] 0)).
    reflexivity.
Defined.

(** The monitor changes nothing but the stdout of its own job, whatever it
    reads and however far it gets. *)
Lemma monitor_loop_frame (reads : list (list Byte.byte * bool)) :
  ∀ (fuel : nat) (job : string) (buf : list string) (w : World),
    ∃ g : list string → list string,
      records (store (snd (monitor_loop fuel job reads buf w)))
      = alter (set_stdout g) job (records (store w))
      ∧ events (snd (monitor_loop fuel job reads buf w)) = events w
      ∧ (fuel = 0%nat → ∀ x, g x = x).
Proof.
  assert (Hid : ∀ job (m : gmap string JobRecord),
             m = alter (set_stdout (λ x, x)) job m).
  { intros job m. symmetry. apply alter_id. by intros []. }
  assert (Hfinal : ∀ (fuel : nat) job buf w (s : string),
    ∃ g : list string → list string,
      records (store (snd (match on_store (update_stdout job buf true) w with
                           | (inl e, w') => (Raised e, w')
                           | (inr _, w') => (Returned s, w')
                           end)))
      = alter (set_stdout g) job (records (store w))
      ∧ events (snd (match on_store (update_stdout job buf true) w with
                     | (inl e, w') => (Raised e, w')
                     | (inr _, w') => (Returned s, w')
                     end)) = events w
      ∧ (S fuel = 0%nat → ∀ x, g x = x)).
  { intros fuel job buf w s. unfold on_store. rewrite update_stdout_run.
    destruct (head_outcome (store w)); simpl.
    - by exists (λ _, buf).
    - by exists (λ _, buf).
    - by exists (λ x, x). }
  assert (Hstop : ∀ fuel job buf w,
    ∃ g : list string → list string,
      records (store (snd (monitor_loop fuel job [] buf w)))
      = alter (set_stdout g) job (records (store w))
      ∧ events (snd (monitor_loop fuel job [] buf w)) = events w
      ∧ (fuel = 0%nat → ∀ x, g x = x)).
  { intros [|fuel] job buf w; [by exists (λ x, x)|].
    rewrite monitor_loop_eof, monitor_loop_step. simpl. apply Hfinal. }
  induction reads as [|[raw exited] rest IH]; intros fuel job buf w;
    [apply Hstop|].
  destruct fuel as [|fuel]; [by exists (λ x, x)|].
  rewrite monitor_loop_step.
  destruct (Utf8.decode raw) as [line|]; [|by exists (λ x, x)].
  destruct (String.eqb line "" && exited); [apply Hfinal|].
  rewrite log_and_append_run.
  destruct (head_outcome (store w)); simpl; [| |by exists (λ x, x)].
  - destruct (IH fuel job (buf ++ [line])
                {| store := {| records := alter (set_stdout (λ old, old ++ [line]))
                                            job (records (store w));
                               faults := tail (faults (store w)) |};
                   events := events w; logged := logged w ++ [line] |})
      as (g & Hrec & Hev & _).
    exists (λ old, g (old ++ [line])). rewrite Hrec, Hev. simpl.
    split; [|done]. rewrite alter_alter_eq. apply alter_ext. by intros [].
  - destruct (IH fuel job (buf ++ [line])
                {| store := {| records := records (store w);
                               faults := tail (faults (store w)) |};
                   events := events w; logged := logged w ++ [line] |})
      as (g & Hrec & Hev & _).
    exists g. by rewrite Hrec, Hev.
Qed.

(** ** Job launcher *)

Section LauncherProperties.

Variable json_dumps : Overrides → string.

(** One call of [run_report] on a store that accepts the stub. *)
Lemma run_report_run (env : Env) (rn rt mt : string) (ov : Overrides)
    (hc pdf po : bool) (sj : option string) (sync : bool)
    (mf : option string) (nr : Z) (w : World) :
  head_outcome (store w) ≠ Unreachable →
  ∃ (w' : World) (out : list string),
    run_report json_dumps env rn rt mt ov hc pdf po sj sync mf nr w
    = (launch_result env sync, w')
    ∧ events w'
      = events w
        ++ [EvSaveCheckStub (uuid4 env);
            EvPopen (build_command json_dumps (app_config env) (uuid4 env)
                       rn rt mt ov hc pdf po sj mf nr);
            EvThreadStart (uuid4 env)]
        ++ wait_events sync
    ∧ records (store w')
      = <[uuid4 env := set_stdout (λ _, out)
                         (stub_record env rn rt mt ov hc pdf sj)]>
          (records (store w))
    ∧ (thread_progress env = 0%nat → out = []).
Proof.
  intros Hh.
  assert (Hcase : head_outcome (store w) = Applied
                  ∨ head_outcome (store w) = AppendLost)
    by (destruct (head_outcome (store w)); auto; done).
  unfold run_report, bind, emit, on_store, start_monitor_thread, bind, emit.
  simpl. rewrite save_check_stub_run.
  unfold launch_result, observed_returncode, wait_or_poll, wait_events,
    bind, emit, ret, raise, truthy.
  destruct Hcase as [Hc | Hc]; rewrite Hc; simpl;
    match goal with
    | |- context [monitor_loop ?n ?j ?rs ?b ?x] =>
        destruct (monitor_loop_frame rs n j b x) as (g & Hrec & Hev & Hzero)
    end;
    simpl in Hrec, Hev; rewrite alter_insert_eq in Hrec;
    destruct sync, (exited_in_grace env); simpl;
    try destruct (exit_code (child env) =? 0);
    simpl; eexists; exists (g []); (split; [reflexivity|]); simpl;
    rewrite Hrec, Hev, <- ?app_assoc; auto.
Qed.

(** A store that cannot be reached fails the submission before anything is
    spawned. *)
Lemma run_report_unreachable (env : Env) (rn rt mt : string) (ov : Overrides)
    (hc pdf po : bool) (sj : option string) (sync : bool)
    (mf : option string) (nr : Z) (w : World) :
  head_outcome (store w) = Unreachable →
  fst (run_report json_dumps env rn rt mt ov hc pdf po sj sync mf nr w)
  = inl PersistenceError
  ∧ events (snd (run_report json_dumps env rn rt mt ov hc pdf po sj sync mf
                   nr w))
    = events w ++ [EvSaveCheckStub (uuid4 env)]
  ∧ records (store (snd (run_report json_dumps env rn rt mt ov hc pdf po sj
                           sync mf nr w)))
    = records (store w).
Proof.
  intros Hh. unfold run_report, bind, emit, on_store. simpl.
  rewrite save_check_stub_run, Hh. done.
Qed.

(** A job the store does not know cannot be rerun. *)
Lemma rerun_report_unknown (env : Env) (job : string) (po sync : bool)
    (w : World) :
  get_check_result job (store w) = None →
  _rerun_report json_dumps env job po sync w = (inl (HTTPException 404), w).
Proof. intros Hr. unfold _rerun_report. by rewrite Hr. Qed.


(** C3.  After the wait or the poll, a child seen to have exited with a
    nonzero code makes [run_report] raise the run-time error whose message
    carries that code; a zero code or a child still running makes it return
    the job identity.  In both cases the record created at submission is
    still in the store with status [SUBMITTED], changed by nothing but the
    monitor's writes to its stdout, and no other record is touched. *)
Theorem run_report_failure_classification (env : Env) (rn rt mt : string)
    (ov : Overrides) (hc pdf po : bool) (sj : option string) (sync : bool)
    (mf : option string) (nr : Z) (w : World) :
  head_outcome (store w) ≠ Unreachable →
  ∃ (w' : World) (out : list string),
    run_report json_dumps env rn rt mt ov hc pdf po sj sync mf nr w
    = (match observed_returncode env sync with
       | Some c =>
           if c =? 0 then inr (uuid4 env)
           else inl (RuntimeError
                       ("The report execution failed with exit code "
                        +:+ pretty c))
       | None => inr (uuid4 env)
       end, w')
    ∧ get_check_result (uuid4 env) (store w')
      = Some (set_stdout (λ _, out) (stub_record env rn rt mt ov hc pdf sj))
    ∧ status <$> get_check_result (uuid4 env) (store w') = Some SUBMITTED
    ∧ (thread_progress env = 0%nat → out = [])
    ∧ ∀ j, j ≠ uuid4 env →
           get_check_result j (store w') = get_check_result j (store w).
Proof.
  intros Hh.
  destruct (run_report_run env rn rt mt ov hc pdf po sj sync mf nr w Hh)
    as (w' & out & Hrun & _ & Hrec & Hzero).
  exists w', out. unfold get_check_result.
  rewrite Hrec, lookup_insert_eq. repeat split; try done.
  intros j Hj. by rewrite lookup_insert_ne.
Qed.


(** C9.  Whatever [hide_code] and [mailfrom] the record of the job rerun
    holds, the new submission is made with [hide_code] false and no
    [mailfrom]: the new record stores false and none, and the command of the
    child carries [--show-code] and neither a [--mailfrom=] nor a
    [--scheduler-job-id=] argument; report name, derived title, mailto,
    overrides and the PDF flag are the ones forwarded. *)
Theorem rerun_report_drops_hide_code_and_mailfrom (env : Env) (job : string)
    (po sync : bool) (w : World) (r : JobRecord) :
  get_check_result job (store w) = Some r →
  head_outcome (store w) ≠ Unreachable →
  ∃ (res : exn + string) (w' : World) (waits : list event),
    _rerun_report json_dumps env job po sync w = (res, w')
    ∧ hide_code <$> get_check_result (uuid4 env) (store w') = Some false
    ∧ mailfrom <$> get_check_result (uuid4 env) (store w') = Some None
    ∧ events w'
      = events w
        ++ [EvSaveCheckStub (uuid4 env);
            EvPopen
              (config_args (app_config env)
               ++ [ "execute-notebook";
                    "--job-id"; uuid4 env;
                    "--report-name"; report_name r;
                    "--report-title"; rerun_title (report_title r);
                    "--mailto"; mailto r;
                    "--overrides-as-json"; json_dumps (overrides r);
                    (if generate_pdf_output r then "--pdf-output"
                     else "--no-pdf-output");
                    "--show-code";
                    "--n-retries"; "3" ]
               ++ (if po then ["--prepare-notebook-only"] else []));
            EvThreadStart (uuid4 env)]
        ++ waits.
Proof.
  intros Hr Hh.
  destruct (run_report_run env (report_name r) (rerun_title (report_title r))
              (mailto r) (overrides r) false (generate_pdf_output r) po None
              sync None 3 w Hh)
    as (w' & out & Hrun & Hev & Hrec & _).
  exists (launch_result env sync), w', (wait_events sync).
  unfold _rerun_report, get_check_result in *.
  rewrite Hr, Hrun, Hrec, lookup_insert_eq, Hev.
  repeat split; try done.
  do 4 f_equal. unfold build_command, config_args.
  rewrite <- !app_assoc. do 4 f_equal. simpl.
  by rewrite app_nil_r.
Qed.

End LauncherProperties.


Lemma run_report_failure_classification_witness :
  ∃ (w' : World),
    run_report sample_json_dumps (sample_env 2 false) "sales/eu" "Q1"
      "ops@example.org" [("q", PyStr "1")] false false false None true None 3
      (sample_world "j" [])
    = (inl (RuntimeError "The report execution failed with exit code 2"), w')
    ∧ status <$> get_check_result "uuid-2" (store w') = Some SUBMITTED.
Proof.
  destruct (run_report_failure_classification sample_json_dumps
              (sample_env 2 false) "sales/eu" "Q1" "ops@example.org"
              [("q", PyStr "1")] false false false None true None 3
              (sample_world "j" []))
    as (w' & out & Hrun & _ & Hst & _).
  - discriminate.
  - exists w'. split; [exact Hrun | exact Hst].
Defined.


Lemma rerun_report_drops_hide_code_and_mailfrom_witness :
  hide_code (sample_record "j" "Q1") = true
  ∧ mailfrom (sample_record "j" "Q1") = Some "desk@example.org"
  ∧ ∃ (res : exn + string) (w' : World),
      _rerun_report sample_json_dumps (sample_env 0 true) "j" false false
        (sample_world "j" [])
      = (res, w')
      ∧ hide_code <$> get_check_result "uuid-2" (store w') = Some false
      ∧ mailfrom <$> get_check_result "uuid-2" (store w') = Some None.
Proof.
  split; [reflexivity|]. split; [reflexivity|].
  destruct (rerun_report_drops_hide_code_and_mailfrom sample_json_dumps
              (sample_env 0 true) "j" false false (sample_world "j" [])
              (sample_record "j" "Q1"))
    as (res & w' & waits & Hrun & Hhc & Hmf & _).
  - reflexivity.
  - discriminate.
  - exists res, w'. repeat split; assumption.
Defined.

(** ** Snapshot exporter *)

Lemma bind_assoc {S A B C} (m : M S A) (k : A → M S B) (h : B → M S C)
    (s : S) :
  bind (bind m k) h s = bind m (λ a, bind (k a) h) s.
Proof. unfold bind. by destruct (m s) as [[e|a] s']. Qed.

Lemma bind_ext {S A B} (m : M S A) (k k' : A → M S B) (s : S) :
  (∀ a s', k a s' = k' a s') → bind m k s = bind m k' s.
Proof. intros H. unfold bind. by destruct (m s) as [[e|a] s']. Qed.

Lemma run_steps_app (a b : list (string * content)) (fs : FileSystem) :
  run_steps (a ++ b) fs = (run_steps a ;;; run_steps b) fs.
Proof.
  revert fs. induction a as [|step a IH]; intros fs; [done|].
  simpl. rewrite bind_assoc. apply bind_ext. intros _ s'. apply IH.
Qed.

Lemma write_outputs_steps (outputs : list (string * list Byte.byte))
    (directory : string) (fs : FileSystem) :
  write_outputs outputs directory fs
  = run_steps (map (λ '(path, output),
                      (OsPath.join directory [path], Binary output)) outputs)
      fs.
Proof.
  revert fs. induction outputs as [|[path output] rest IH]; intros fs; [done|].
  simpl. unfold write_step. simpl. rewrite bind_assoc.
  apply bind_ext. intros _ s1. apply bind_ext. intros _ s2. apply IH.
Qed.

(** The exporter writes the files of [export_steps], one after the other. *)
Lemma write_results_steps (results : list JobRecord) (directory : string)
    (fs : FileSystem) :
  _write_results results directory fs
  = run_steps (export_steps directory results) fs.
Proof.
  revert fs. induction results as [|r rest IH]; intros fs; [done|].
  unfold export_steps. simpl flat_map. fold (export_steps directory rest).
  change (export_steps_of directory r ++ export_steps directory rest)
    with ((OsPath.join directory [override_str (overrides r) +:+ ".html"],
           Text (raw_html r))
          :: (map (λ '(path, output),
                     (OsPath.join directory [path], Binary output))
                (raw_html_resources_outputs r)
              ++ export_steps directory rest)).
  simpl. apply bind_ext. intros _ s1. rewrite run_steps_app.
  unfold _write_notebook_outputs, bind.
  rewrite write_outputs_steps.
  destruct (run_steps _ s1) as [[e|[]] s2]; [done|]. apply IH.
Qed.

Lemma override_str_label (o : Overrides) : override_str o = label_of o.
Proof.
  unfold override_str. induction o as [|[name value] rest IH]; [done|].
  simpl. rewrite IH.
  by rewrite !append_assoc.
Qed.

Lemma os_makedirs_raise_same (d : string) (fs fs' : FileSystem) (e : exn) :
  os_makedirs d fs = (inl e, fs') → fs' = fs.
Proof.
  unfold os_makedirs. repeat case_match; by intros [= <- <-].
Qed.

Lemma create_dirs_existing (filename : string) (fs : FileSystem) :
  OsPath.dirname filename ∈ dirs fs →
  OsPath.dirname filename ≠ "" →
  _create_dirs_if_not_present filename fs = (inr (), fs).
Proof.
  intros Hin Hne. unfold _create_dirs_if_not_present, os_makedirs.
  destruct (String.eqb_spec (OsPath.dirname filename) ""); [done|].
  by rewrite (bool_decide_eq_true_2 _ Hin).
Qed.

Lemma create_dirs_reraises (filename : string) (fs fs' : FileSystem)
    (e : Errno) :
  os_makedirs (OsPath.dirname filename) fs = (inl (OSError e), fs') →
  e ≠ EEXIST →
  _create_dirs_if_not_present filename fs = (inl (OSError e), fs).
Proof.
  intros Hmk Hne. unfold _create_dirs_if_not_present.
  rewrite Hmk, (bool_decide_eq_true_2 _ Hne).
  by rewrite (os_makedirs_raise_same _ _ _ _ Hmk).
Qed.

(** What a file write that went through leaves behind. *)
Lemma write_step_success (path : string) (c : content) (fs fs' : FileSystem) :
  write_step (path, c) fs = (inr (), fs') →
  OsPath.dirname path ≠ ""
  ∧ OsPath.dirname path ∈ dirs fs'
  ∧ (path ∉ dirs fs')
  ∧ files fs' = <[path := c]> (files fs)
  ∧ dirs fs ⊆ dirs fs'
  ∧ mkdir_fault fs' = mkdir_fault fs
  ∧ (∃ l, fs_log fs' = fs_log fs ++ l ++ [FsWrite path c])
  ∧ (well_formed_fs fs → well_formed_fs fs').
Proof.
  unfold write_step, bind, _create_dirs_if_not_present, os_makedirs,
    os_write_file. simpl.
  set (d := OsPath.dirname path).
  destruct (String.eqb_spec d "") as [|Hd]; [done|].
  destruct (bool_decide (d ∈ dirs fs)) eqn:Hdir; simpl.
  { apply bool_decide_eq_true_1 in Hdir.
    destruct (bool_decide (path ∈ dirs fs)) eqn:Hp; [done|].
    apply bool_decide_eq_false_1 in Hp.
    rewrite (bool_decide_eq_true_2 _ Hdir). simpl. intros [= <-]. simpl.
    repeat split; try done.
    - by exists [].
    - intros Hwf p Hpd. simpl in *.
      rewrite lookup_insert_ne; [by apply Hwf | congruence]. }
  apply bool_decide_eq_false_1 in Hdir.
  destruct (bool_decide (d ∈ dom (files fs))) eqn:Hfile; simpl.
  { destruct (bool_decide (path ∈ dirs fs)); [done|].
    rewrite (bool_decide_eq_false_2 _ Hdir). simpl.
    by destruct (bool_decide (d ∈ dom (files fs))). }
  apply bool_decide_eq_false_1 in Hfile.
  destruct (existsb _ (ancestors d)) eqn:Hanc; simpl; [done|].
  destruct (mkdir_fault fs !! d) as [e|] eqn:Hfault; simpl.
  { destruct (bool_decide (e ≠ EEXIST)); [done|].
    destruct (bool_decide (path ∈ dirs fs)); [done|].
    rewrite (bool_decide_eq_false_2 _ Hdir). simpl.
    by destruct (bool_decide (d ∈ dom (files fs))). }
  destruct (bool_decide (path ∈ _)) eqn:Hp; [done|].
  apply bool_decide_eq_false_1 in Hp.
  rewrite bool_decide_eq_true_2 by set_solver. simpl.
  intros [= <-]. simpl.
  repeat split; try done.
  - set_solver.
  - set_solver.
  - exists [FsMakedirs d]. by rewrite <- app_assoc.
  - intros Hwf p Hpd. simpl in *. rewrite lookup_insert_ne by congruence.
    apply elem_of_union in Hpd as [Hpd|Hpd];
      [apply elem_of_union in Hpd as [Hpd|Hpd]|].
    + by apply Hwf.
    + apply elem_of_singleton in Hpd as ->. by apply not_elem_of_dom.
    + apply elem_of_list_to_set in Hpd. apply not_elem_of_dom.
      intros Hin. rewrite <- not_true_iff_false in Hanc. apply Hanc.
      apply existsb_exists. exists p. split; [by apply list_elem_of_In|].
      by apply bool_decide_eq_true_2.
Qed.

(** Writing a file whose directory is there already creates nothing and
    cannot fail on the directory. *)
Lemma write_step_existing (path : string) (c : content) (fs : FileSystem) :
  OsPath.dirname path ≠ "" →
  OsPath.dirname path ∈ dirs fs →
  path ∉ dirs fs →
  write_step (path, c) fs
  = (inr (), {| dirs := dirs fs; files := <[path := c]> (files fs);
                mkdir_fault := mkdir_fault fs;
                fs_log := fs_log fs ++ [FsWrite path c] |}).
Proof.
  intros Hd Hin Hp. unfold write_step, bind. simpl.
  rewrite create_dirs_existing by done. unfold os_write_file.
  rewrite (bool_decide_eq_false_2 _ Hp), (bool_decide_eq_true_2 _ Hin).
  by rewrite orb_true_r.
Qed.

Lemma foldl_put_dom (steps : list (string * content)) :
  ∀ (m : gmap string content) (p : string),
    is_Some (m !! p) → is_Some (foldl put_step m steps !! p).
Proof.
  induction steps as [|[q c] rest IH]; intros m p Hp; [done|].
  simpl. apply IH. unfold put_step. simpl.
  destruct (decide (q = p)) as [->|Hne].
  - rewrite lookup_insert_eq. by eexists.
  - by rewrite lookup_insert_ne.
Qed.

Lemma foldl_put_union (steps : list (string * content)) :
  ∀ m : gmap string content,
    foldl put_step m steps = foldl put_step ∅ steps ∪ m.
Proof.
  induction steps as [|[q c] rest IH] using rev_ind; intros m.
  - simpl. by rewrite (left_id_L ∅ (∪)).
  - rewrite !foldl_app. simpl. unfold put_step at 1 3. simpl.
    rewrite IH. by rewrite insert_union_l.
Qed.

(** Writing the same files with the same contents once more changes no
    file. *)
Lemma foldl_put_idem (steps : list (string * content))
    (m : gmap string content) :
  foldl put_step (foldl put_step m steps) steps = foldl put_step m steps.
Proof.
  rewrite (foldl_put_union steps (foldl put_step m steps)).
  rewrite (foldl_put_union steps m).
  by rewrite (assoc_L (∪)), (idemp_L (∪)).
Qed.

(** An export that went through: what it leaves behind. *)
Lemma run_steps_success (steps : list (string * content)) :
  ∀ fs fs' : FileSystem,
    run_steps steps fs = (inr (), fs') →
    dirs fs ⊆ dirs fs'
    ∧ mkdir_fault fs' = mkdir_fault fs
    ∧ files fs' = foldl put_step (files fs) steps
    ∧ (∃ l, fs_log fs' = fs_log fs ++ l
            ∧ ∀ step, step ∈ steps → FsWrite (fst step) (snd step) ∈ l)
    ∧ (well_formed_fs fs →
       well_formed_fs fs'
       ∧ ∀ step, step ∈ steps →
           OsPath.dirname (fst step) ≠ ""
           ∧ OsPath.dirname (fst step) ∈ dirs fs'
           ∧ fst step ∉ dirs fs').
Proof.
  induction steps as [|[path c] rest IH]; intros fs fs'.
  - intros [= <-]. split; [done|]. split; [done|]. split; [done|]. split.
    + exists []. rewrite app_nil_r. split; [done|]. by intros step ?%elem_of_nil.
    + intros Hfs. split; [done|]. by intros step ?%elem_of_nil.
  - simpl. unfold bind.
    destruct (write_step (path, c) fs) as [[e|[]] fs1] eqn:Hstep; [done|].
    intros Hrest.
    apply write_step_success in Hstep
      as (Hd & Hin & Hp & Hfiles & Hsub & Hfault & (l1 & Hlog) & Hwf).
    apply IH in Hrest
      as (Hsub' & Hfault' & Hfiles' & (l2 & Hlog' & Hall) & Hwf').
    split; [by transitivity (dirs fs1)|]. split; [congruence|].
    split; [by rewrite Hfiles', Hfiles|].
    split.
    + exists ((l1 ++ [FsWrite path c]) ++ l2).
      split; [by rewrite Hlog', Hlog, <- !app_assoc|].
      intros step [->|Hstep]%elem_of_cons; simpl.
      * apply elem_of_app. left. apply elem_of_app. right. by left.
      * apply elem_of_app. right. by apply Hall.
    + intros Hfs. destruct (Hwf' (Hwf Hfs)) as [Hfs' Hsteps].
      split; [done|].
      intros step [->|Hstep]%elem_of_cons; simpl; [|by apply Hsteps].
      split; [done|]. split; [by apply Hsub'|].
      intros Hdir. apply Hfs' in Hdir.
      assert (is_Some (files fs' !! path)) as [x Hx].
      { rewrite Hfiles'. apply foldl_put_dom. rewrite Hfiles.
        rewrite lookup_insert_eq. by eexists. }
      congruence.
Qed.

(** An export into directories that are all there. *)
Lemma run_steps_existing (steps : list (string * content)) :
  ∀ fs : FileSystem,
    (∀ step, step ∈ steps →
       OsPath.dirname (fst step) ≠ ""
       ∧ OsPath.dirname (fst step) ∈ dirs fs
       ∧ fst step ∉ dirs fs) →
    run_steps steps fs
    = (inr (), {| dirs := dirs fs;
                  files := foldl put_step (files fs) steps;
                  mkdir_fault := mkdir_fault fs;
                  fs_log := fs_log fs
                            ++ map (λ step, FsWrite (fst step) (snd step))
                                 steps |}).
Proof.
  induction steps as [|[path c] rest IH]; intros fs Hall.
  - destruct fs. simpl. by rewrite app_nil_r.
  - destruct (Hall (path, c)) as (Hd & Hin & Hp); [by left|]. simpl in *.
    unfold bind. rewrite write_step_existing by done.
    rewrite IH; simpl.
    + by rewrite <- app_assoc.
    + intros step Hstep. apply Hall. by right.
Qed.

(** ** Paths *)

Lemma split_slash_shape (s : string) :
  (Str.contains_slash s = false ∧ Str.split_slash s = [s])
  ∨ (Str.contains_slash s = true
     ∧ ∃ x y ys, Str.split_slash s = x :: y :: ys).
Proof.
  induction s as [|c s IH]; [by left|].
  simpl. destruct (Str.is_slash c) eqn:Hc; simpl.
  - right. split; [done|].
    destruct IH as [[_ ->]|[_ (x & y & ys & ->)]]; eauto.
  - destruct IH as [[-> ->]|[-> (x & y & ys & ->)]]; [by left|].
    right. eauto.
Qed.

(** The report suffix holds no ["/"], and the report name is its
    hierarchical prefix followed by the suffix. *)
Lemma last_segment (s : string) :
  Str.contains_slash (Str.last_item (Str.split_slash s)) = false
  ∧ s = OsPath.head_upto_last_slash s +:+ Str.last_item (Str.split_slash s).
Proof.
  unfold Str.last_item.
  induction s as [|c s [IHc IHs]]; [done|].
  simpl. destruct (Str.is_slash c) eqn:Hc; simpl.
  - destruct (split_slash_shape s) as [[_ Hs]|[_ (x & y & ys & Hs)]];
      rewrite Hs in *; simpl in *; (split; [done|]);
      rewrite append_cons; by f_equal.
  - destruct (split_slash_shape s) as [[Hn Hs]|[Hn (x & y & ys & Hs)]];
      rewrite Hs, Hn in *; simpl in *.
    + by rewrite Hc, Hn.
    + split; [done|]. rewrite append_cons. by f_equal.
Qed.

Lemma startswith_slash_cons (c : ascii) (s : string) :
  Str.startswith (String c s) "/" = Str.is_slash c.
Proof.
  unfold Str.startswith, Str.is_slash.
  change (String.prefix "/" (String c s))
    with (if Ascii.ascii_dec "/"%char c then String.prefix "" s else false).
  destruct (Ascii.ascii_dec "/"%char c) as [<-|Hne].
  - by destruct s.
  - symmetry. apply Ascii.eqb_neq. congruence.
Qed.

Lemma no_slash_startswith (s : string) :
  Str.contains_slash s = false → Str.startswith s "/" = false.
Proof.
  destruct s as [|c s]; [done|]. rewrite startswith_slash_cons. simpl.
  by intros [Hc _]%orb_false_elim.
Qed.

Lemma no_slash_endswith (s : string) :
  Str.contains_slash s = false → Str.endswith_slash s = false.
Proof.
  induction s as [|c s IH]; [done|]. simpl.
  intros [Hc Hs]%orb_false_elim. destruct s; [done|]. by apply IH.
Qed.

Lemma endswith_slash_app (a b : string) :
  b ≠ "" → Str.endswith_slash (a +:+ b) = Str.endswith_slash b.
Proof.
  intros Hb. induction a as [|c a IH]; [done|].
  rewrite append_cons. simpl. rewrite IH.
  destruct (a +:+ b) eqn:E; [|done].
  destruct a; [|done]. simpl in E. by subst.
Qed.

Lemma startswith_slash_html (label : string) :
  Str.startswith (label +:+ ".html") "/" = Str.startswith label "/".
Proof.
  destruct label as [|c l]; [done|].
  by rewrite append_cons, !startswith_slash_cons.
Qed.

(** Where [os.path.join] just puts a ["/"] between its arguments. *)
Lemma join_plain (root segment file : string) :
  root ≠ "" →
  Str.endswith_slash root = false →
  segment ≠ "" →
  Str.contains_slash segment = false →
  Str.startswith file "/" = false →
  OsPath.join root [segment; file]
  = root +:+ "/" +:+ segment +:+ "/" +:+ file.
Proof.
  intros Hroot Hend Hseg Hslash Hfile.
  unfold OsPath.join. simpl. unfold OsPath.join_step at 2.
  rewrite (no_slash_startswith _ Hslash), Hend.
  destruct (String.eqb_spec root ""); [done|]. simpl.
  unfold OsPath.join_step. rewrite Hfile.
  assert (Hne : root +:+ "/" +:+ segment ≠ "") by (by destruct root).
  destruct (String.eqb_spec (root +:+ "/" +:+ segment) ""); [done|]. simpl.
  rewrite endswith_slash_app by (by destruct segment).
  replace (Str.endswith_slash ("/" +:+ segment))
    with (Str.endswith_slash segment) by (by destruct segment).
  rewrite (no_slash_endswith _ Hslash).
  by rewrite !append_assoc.
Qed.

Lemma export_steps_html (directory : string) (results : list JobRecord)
    (r : JobRecord) :
  r ∈ results →
  (OsPath.join directory [override_str (overrides r) +:+ ".html"],
   Text (raw_html r)) ∈ export_steps directory results.
Proof.
  intros Hr. apply list_elem_of_In, in_flat_map. exists r.
  split; [by apply list_elem_of_In | by left].
Qed.

Lemma foldl_put_written (steps : list (string * content)) :
  ∀ (m : gmap string content) (step : string * content),
    step ∈ steps → is_Some (foldl put_step m steps !! fst step).
Proof.
  induction steps as [|s rest IH]; intros m step Hin;
    [by apply elem_of_nil in Hin|].
  apply elem_of_cons in Hin as [->|Hin]; simpl; [|by apply IH].
  apply foldl_put_dom. unfold put_step. rewrite lookup_insert_eq. by eexists.
Qed.

Section SnapshotProperties.

Variable query : string → Store → list JobRecord.

(** An export is the writing of the files of its records. *)
Lemma snap_steps (OUTPUT_DIR : string) (st : Store) (name : string)
    (fs : FileSystem) :
  snap_latest_successful_notebooks query OUTPUT_DIR st name fs
  = run_steps
      (export_steps
         (OsPath.join OUTPUT_DIR [Str.last_item (Str.split_slash name)])
         (query name st))
      fs.
Proof. unfold snap_latest_successful_notebooks. apply write_results_steps. Qed.

(** C7.  In an export that went through, every record of the query had its
    rendered text written to the path that joins the destination root, the
    report suffix and [label.html]: the suffix is the last ["/"]-separated
    segment of the report name, the label the concatenation of
    [name_value] over the overrides in their order.  The write step of the
    record leaves exactly the rendered text in that file, and the file
    exists at the end.  With a root that is not empty and does not end in
    ["/"], a suffix that is not empty and a label that does not start with
    ["/"], the path reads [root/suffix/label.html]. *)
Theorem snapshot_writes_rendered_html (OUTPUT_DIR : string) (st : Store)
    (name : string) (fs fs' : FileSystem) (r : JobRecord) :
  snap_latest_successful_notebooks query OUTPUT_DIR st name fs = (inr (), fs') →
  r ∈ query name st →
  let report_suffix := Str.last_item (Str.split_slash name) in
  let label := label_of (overrides r) in
  let path := OsPath.join OUTPUT_DIR [report_suffix; label +:+ ".html"] in
  name = OsPath.head_upto_last_slash name +:+ report_suffix
  ∧ Str.contains_slash report_suffix = false
  ∧ (∃ l, fs_log fs' = fs_log fs ++ l
          ∧ FsWrite path (Text (raw_html r)) ∈ l)
  ∧ (∀ fs0 fs1,
       _write_notebook_html r (OsPath.join OUTPUT_DIR [report_suffix]) fs0
       = (inr (), fs1) →
       files fs1 !! path = Some (Text (raw_html r)))
  ∧ is_Some (files fs' !! path)
  ∧ (OUTPUT_DIR ≠ "" → Str.endswith_slash OUTPUT_DIR = false →
     report_suffix ≠ "" → Str.startswith label "/" = false →
     path = OUTPUT_DIR +:+ "/" +:+ report_suffix +:+ "/" +:+ label
            +:+ ".html").
Proof.
  intros Hrun Hr report_suffix label path.
  destruct (last_segment name) as [Hnoslash Hname].
  assert (Hpath : path = OsPath.join (OsPath.join OUTPUT_DIR [report_suffix])
                           [override_str (overrides r) +:+ ".html"])
    by (by rewrite override_str_label).
  rewrite snap_steps in Hrun.
  pose proof (export_steps_html (OsPath.join OUTPUT_DIR [report_suffix]) _ _ Hr)
    as Hstep.
  rewrite <- Hpath in Hstep.
  apply run_steps_success in Hrun
    as (_ & _ & Hfiles & (l & Hlog & Hall) & _).
  split; [exact Hname|]. split; [exact Hnoslash|].
  split; [exists l; split; [done | by apply (Hall _ Hstep)]|].
  split.
  { intros fs0 fs1 Hwrite.
    change (_write_notebook_html r (OsPath.join OUTPUT_DIR [report_suffix]) fs0)
      with (write_step
              (OsPath.join (OsPath.join OUTPUT_DIR [report_suffix])
                 [override_str (overrides r) +:+ ".html"],
               Text (raw_html r)) fs0) in Hwrite.
    apply write_step_success in Hwrite as (_ & _ & _ & -> & _).
    rewrite Hpath. apply lookup_insert_eq. }
  split.
  { rewrite Hfiles. by apply (foldl_put_written _ _ _ Hstep). }
  intros Hroot Hend Hsuffix Hlabel. unfold path.
  rewrite join_plain; try done.
  by rewrite startswith_slash_html.
Qed.

(** C8.  When the directory of a file is there already, creating its
    directories returns without error and changes nothing.  When the
    creation fails for another reason than the directory being there, the
    error is raised again, and neither the rendered document nor an output
    file is then written.  An export that went through on a file system goes
    through again on the file system it left, creating no directory and
    leaving every file as it was. *)
Theorem create_dirs_idempotent (OUTPUT_DIR : string) (st : Store)
    (name : string) (filename : string) (fs : FileSystem) :
  (OsPath.dirname filename ≠ "" →
   OsPath.dirname filename ∈ dirs fs →
   _create_dirs_if_not_present filename fs = (inr (), fs))
  ∧ (∀ (e : Errno) (fs' : FileSystem),
       os_makedirs (OsPath.dirname filename) fs = (inl (OSError e), fs') →
       e ≠ EEXIST →
       _create_dirs_if_not_present filename fs = (inl (OSError e), fs)
       ∧ (∀ result directory,
            OsPath.join directory [override_str (overrides result) +:+ ".html"]
            = filename →
            _write_notebook_html result directory fs = (inl (OSError e), fs))
       ∧ (∀ path output rest directory,
            OsPath.join directory [path] = filename →
            write_outputs ((path, output) :: rest) directory fs
            = (inl (OSError e), fs)))
  ∧ (∀ fs1 : FileSystem,
       well_formed_fs fs →
       snap_latest_successful_notebooks query OUTPUT_DIR st name fs
       = (inr (), fs1) →
       ∃ fs2 : FileSystem,
         snap_latest_successful_notebooks query OUTPUT_DIR st name fs1
         = (inr (), fs2)
         ∧ dirs fs2 = dirs fs1
         ∧ files fs2 = files fs1
         ∧ Forall (λ ev, match ev with FsMakedirs _ => False | _ => True end)
             (drop (length (fs_log fs1)) (fs_log fs2))).
Proof.
  split; [intros; by apply create_dirs_existing|].
  split.
  - intros e fs' Hmk Hne.
    pose proof (create_dirs_reraises _ _ _ _ Hmk Hne) as Hraise.
    split; [exact Hraise|]. split.
    + intros result directory <-. unfold _write_notebook_html, bind.
      by rewrite Hraise.
    + intros path output rest directory <-. cbn [write_outputs].
      unfold bind. by rewrite Hraise.
  - intros fs1 Hwf Hrun. rewrite snap_steps in *.
    apply run_steps_success in Hrun as (_ & _ & Hfiles & _ & Hsteps).
    destruct (Hsteps Hwf) as [_ Hall].
    rewrite run_steps_existing by exact Hall.
    eexists. split; [reflexivity|]. simpl.
    split; [done|]. split; [by rewrite Hfiles, foldl_put_idem|].
    rewrite drop_app_length. apply Forall_forall.
    intros ev [step [-> _]]%list_elem_of_fmap. done.
Qed.

End SnapshotProperties.

Lemma snapshot_writes_rendered_html_witness :
  ∃ l,
    fs_log (snd (snap_latest_successful_notebooks sample_query "out" eu_store
                   "sales/eu" empty_fs))
    = l
    ∧ FsWrite "out/eu/region_EUyear_2024.html" (Text "<html>EU 2024</html>")
      ∈ l.
Proof.
  destruct (snapshot_writes_rendered_html sample_query "out" eu_store
              "sales/eu" empty_fs
              (snd (snap_latest_successful_notebooks sample_query "out"
                      eu_store "sales/eu" empty_fs))
              eu_record)
    as (_ & _ & (l & Hlog & Hin) & _).
  - vm_compute. reflexivity.
  - vm_compute. left.
  - exists l. split; [exact Hlog | exact Hin].
Defined.

Lemma create_dirs_idempotent_witness :
  _create_dirs_if_not_present "out/eu/region_EUyear_2024.html" fs_with_eu_dir
  = (inr (), fs_with_eu_dir)
  ∧ _write_notebook_html eu_record "out/eu" fs_denied
    = (inl (OSError EACCES), fs_denied)
  ∧ ∃ fs2,
      snap_latest_successful_notebooks sample_query "out" eu_store "sales/eu"
        (snd (snap_latest_successful_notebooks sample_query "out" eu_store
                "sales/eu" empty_fs))
      = (inr (), fs2)
      ∧ files fs2
        = files (snd (snap_latest_successful_notebooks sample_query "out"
                        eu_store "sales/eu" empty_fs)).
Proof.
  split; [|split].
  - apply (create_dirs_idempotent sample_query "out" eu_store "sales/eu"
             "out/eu/region_EUyear_2024.html" fs_with_eu_dir).
    + discriminate.
    + vm_compute. reflexivity.
  - destruct (create_dirs_idempotent sample_query "out" eu_store "sales/eu"
                "out/eu/region_EUyear_2024.html" fs_denied)
      as (_ & Hraise & _).
    destruct (Hraise EACCES fs_denied) as (_ & Hhtml & _).
    + vm_compute. reflexivity.
    + discriminate.
    + apply Hhtml. reflexivity.
  - destruct (create_dirs_idempotent sample_query "out" eu_store "sales/eu"
                "out/eu/region_EUyear_2024.html" empty_fs)
      as (_ & _ & Htwice).
    destruct (Htwice (snd (snap_latest_successful_notebooks sample_query "out"
                             eu_store "sales/eu" empty_fs)))
      as (fs2 & Hrun & _ & Hfiles & _).
    + intros p Hp. by apply not_elem_of_empty in Hp.
    + vm_compute. reflexivity.
    + exists fs2. split; [exact Hrun | exact Hfiles].
Defined.

(** * Further properties of the sources *)

(** ** Output monitor, continued *)

Lemma text_app (a b : list Byte.byte) : text (a ++ b) = text a +:+ text b.
Proof.
  unfold text, string_of_list_byte. induction a as [|x a IH]; [done|].
  cbn [app map string_of_list_ascii]. by rewrite IH, append_cons.
Qed.

Lemma join_empty_text (raws : list (list Byte.byte)) :
  Str.join_empty (map text raws) = text (concat raws).
Proof.
  unfold Str.join_empty. induction raws as [|raw raws IH]; [done|].
  simpl. by rewrite IH, text_app.
Qed.

Lemma well_formed_cons (b0 : Byte.byte) (r0 : list Byte.byte) :
  Utf8.well_formed (b0 :: r0) =
  if Utf8.between 0x00 0x7F b0 then Utf8.well_formed r0
  else if Utf8.between 0xC2 0xDF b0 then
    match r0 with
    | b1 :: r1 => Utf8.cont b1 && Utf8.well_formed r1
    | _ => false
    end
  else if Utf8.between 0xE0 0xEF b0 then
    match r0 with
    | b1 :: b2 :: r2 =>
        (if Utf8.between 0xE0 0xE0 b0 then Utf8.between 0xA0 0xBF b1
         else if Utf8.between 0xED 0xED b0 then Utf8.between 0x80 0x9F b1
         else Utf8.cont b1)
        && Utf8.cont b2 && Utf8.well_formed r2
    | _ => false
    end
  else if Utf8.between 0xF0 0xF4 b0 then
    match r0 with
    | b1 :: b2 :: b3 :: r3 =>
        (if Utf8.between 0xF0 0xF0 b0 then Utf8.between 0x90 0xBF b1
         else if Utf8.between 0xF4 0xF4 b0 then Utf8.between 0x80 0x8F b1
         else Utf8.cont b1)
        && Utf8.cont b2 && Utf8.cont b3 && Utf8.well_formed r3
    | _ => false
    end
  else false.
Proof. reflexivity. Qed.

(** Well-formed pieces make a well-formed whole. *)
Lemma well_formed_app (a b : list Byte.byte) :
  Utf8.well_formed a = true → Utf8.well_formed b = true →
  Utf8.well_formed (a ++ b) = true.
Proof.
  intros Ha Hb. remember (length a) as n eqn:Hn. revert a Hn Ha.
  induction n as [n IH] using lt_wf_ind. intros a Hn Ha.
  destruct a as [|b0 r0]; [done|].
  rewrite <- app_comm_cons, well_formed_cons. rewrite well_formed_cons in Ha.
  simpl in Hn.
  destruct (Utf8.between 0 127 b0).
  { apply (IH (length r0)); [lia | done | done]. }
  destruct (Utf8.between 194 223 b0).
  { destruct r0 as [|b1 r1]; [done|]. cbn [app].
    apply andb_true_iff in Ha as [-> Ha]. simpl in Hn.
    apply (IH (length r1)); [lia | done | done]. }
  destruct (Utf8.between 224 239 b0).
  { destruct r0 as [|b1 [|b2 r2]]; [done|done|]. cbn [app].
    apply andb_true_iff in Ha as [-> Ha]. simpl in Hn.
    apply (IH (length r2)); [lia | done | done]. }
  destruct (Utf8.between 240 244 b0); [|done].
  destruct r0 as [|b1 [|b2 [|b3 r3]]]; [done|done|done|]. cbn [app].
  apply andb_true_iff in Ha as [-> Ha]. simpl in Hn.
  apply (IH (length r3)); [lia | done | done].
Qed.

Lemma well_formed_concat (raws : list (list Byte.byte)) :
  Forall decodable raws → Utf8.well_formed (concat raws) = true.
Proof.
  induction 1 as [|raw raws Hraw _ IH]; [done|].
  simpl. by apply well_formed_app.
Qed.

(** X1.  However far the monitor gets and whatever it reads, it leaves the
    calls of the submitting thread alone and changes no record but the one of
    its job, and of that one nothing but the stdout; it neither creates nor
    removes a record. *)
Theorem monitor_touches_only_own_stdout (fuel : nat) (job : string)
    (reads : list (list Byte.byte * bool)) (buf : list string) (w : World) :
  ∃ g : list string → list string,
    records (store (snd (monitor_loop fuel job reads buf w)))
    = alter (set_stdout g) job (records (store w))
    ∧ dom (records (store (snd (monitor_loop fuel job reads buf w))))
      = dom (records (store w))
    ∧ events (snd (monitor_loop fuel job reads buf w)) = events w.
Proof.
  destruct (monitor_loop_frame reads fuel job buf w) as (g & Hrec & Hev & _).
  exists g. rewrite Hrec, Hev. split; [done|]. split; [|done].
  apply dom_alter_L.
Qed.

(** X2.  The text a monitor returns is the bytes of the lines it read, one
    after the other and unchanged: encoding it gives those bytes back, and
    it is what decoding the whole stream in one go gives. *)
Theorem monitor_returns_stream_text (p : Process) (job : string)
    (w w' : World) (s : string) :
  _monitor_stderr p job w = (Returned s, w') →
  s = text (concat (lines_until_exit (stderr_reads p)))
  ∧ list_byte_of_string s = concat (lines_until_exit (stderr_reads p))
  ∧ Utf8.decode (concat (lines_until_exit (stderr_reads p))) = Some s.
Proof.
  intros Hrun. unfold _monitor_stderr in Hrun.
  apply monitor_loop_returned in Hrun as (-> & _ & Hdec).
  simpl. rewrite join_empty_text.
  split; [done|]. split.
  - unfold text. apply list_byte_of_string_of_list_byte.
  - unfold Utf8.decode. by rewrite well_formed_concat.
Qed.

Lemma monitor_returns_stream_text_witness :
  text (line_a ++ line_no_newline)
  = text (concat (lines_until_exit [(line_a, false); (line_no_newline, true)]))
  ∧ list_byte_of_string (text (line_a ++ line_no_newline))
    = concat (lines_until_exit [(line_a, false); (line_no_newline, true)])
  ∧ Utf8.decode
      (concat (lines_until_exit [(line_a, false); (line_no_newline, true)]))
    = Some (text (line_a ++ line_no_newline)).
Proof.
  apply (monitor_returns_stream_text
           (mkProcess [(line_a, false); (line_no_newline, true)] 0) "j"
           (sample_world "j" [])
           (snd (_monitor_stderr
                   (mkProcess [(line_a, false); (line_no_newline, true)] 0)
                   "j" (sample_world "j" [])))).
  vm_compute. reflexivity.
Defined.

(** The loop over a stretch of lines that decode and whose appends the store
    applies. *)
Lemma monitor_loop_prefix (pre : list (list Byte.byte * bool)) :
  ∀ (fuel : nat) (job : string) (rest : list (list Byte.byte * bool))
    (buf : list string) (w : World),
    Forall (λ rd, terminator rd = false) pre →
    Forall decodable (map fst pre) →
    Forall (λ o, o = Applied) (take (length pre) (faults (store w))) →
    ∃ w1,
      monitor_loop (length pre + fuel) job (pre ++ rest) buf w
      = monitor_loop fuel job rest (buf ++ map text (map fst pre)) w1
      ∧ records (store w1)
        = alter (set_stdout (λ old, old ++ map text (map fst pre))) job
            (records (store w))
      ∧ faults (store w1) = drop (length pre) (faults (store w))
      ∧ events w1 = events w
      ∧ logged w1 = logged w ++ map text (map fst pre).
Proof.
  induction pre as [|[raw exited] pre IH];
    intros fuel job rest buf w Hterm Hdec Hok.
  - exists w. simpl. rewrite (app_nil_r buf), (app_nil_r (logged w)).
    repeat split; try done.
    symmetry. apply alter_id. intros [] _. unfold set_stdout. simpl.
    by rewrite app_nil_r.
  - apply Forall_cons in Hterm as [Ht Hterm].
    simpl in Hdec. apply Forall_cons in Hdec as [Hraw Hdec].
    change (length ((raw, exited) :: pre) + fuel)%nat
      with (S (length pre + fuel)).
    rewrite <- app_comm_cons, monitor_loop_step.
    rewrite (decode_decodable _ Hraw), stop_test, Ht, log_and_append_run.
    assert (Hh : head_outcome (store w) = Applied).
    { unfold head_outcome. destruct (faults (store w)) as [|o fl]; [done|].
      simpl in Hok. pose proof (Forall_inv Hok) as Ho. simpl in Ho.
      by subst. }
    rewrite Hh. cbv zeta.
    edestruct (IH fuel job rest (buf ++ [text raw])) as (w1 & Hrun & Hrec & Hfl & Hev & Hlog);
      [exact Hterm | exact Hdec | | exists w1; rewrite Hrun].
    { simpl. destruct (faults (store w)) as [|o fl];
        [simpl; rewrite take_nil; constructor|].
      simpl in Hok. exact (Forall_inv_tail Hok). }
    simpl in *. rewrite <- !app_assoc. simpl.
    rewrite Hrec, Hfl, Hev, Hlog, alter_alter_eq, <- app_assoc.
    repeat split; try done.
    + apply alter_ext. intros [] _. unfold set_stdout, compose. simpl.
      f_equal. rewrite <- app_assoc. reflexivity.
    + destruct (faults (store w)); [simpl; by rewrite drop_nil | done].
Qed.

Lemma fuel_split (pre rest : list (list Byte.byte * bool))
    (rd : list Byte.byte * bool) :
  S (length (pre ++ rd :: rest)) = (length pre + S (S (length rest)))%nat.
Proof. rewrite length_app. simpl. lia. Qed.

(** X3.  When a line does not decode, the monitor raises
    [UnicodeDecodeError] at that line: the lines before it have been logged
    and appended behind what the record held, the undecodable line and
    everything after it are neither logged nor stored, and no final replace
    is made. *)
Theorem monitor_decode_failure_keeps_earlier_lines (job : string)
    (pre rest : list (list Byte.byte * bool)) (raw : list Byte.byte)
    (exited : bool) (rc : Z) (w : World) :
  Forall (λ rd, terminator rd = false) pre →
  Forall decodable (map fst pre) →
  Utf8.well_formed raw = false →
  Forall (λ o, o = Applied) (take (length pre) (faults (store w))) →
  ∃ w',
    _monitor_stderr (mkProcess (pre ++ (raw, exited) :: rest) rc) job w
    = (Raised UnicodeDecodeError, w')
    ∧ logged w' = logged w ++ map text (map fst pre)
    ∧ records (store w')
      = alter (set_stdout (λ old, old ++ map text (map fst pre))) job
          (records (store w))
    ∧ faults (store w') = drop (length pre) (faults (store w)).
Proof.
  intros Hterm Hdec Hbad Hok. unfold _monitor_stderr. simpl stderr_reads.
  rewrite fuel_split.
  destruct (monitor_loop_prefix pre (S (S (length rest))) job
              ((raw, exited) :: rest) [] w Hterm Hdec Hok)
    as (w1 & Hrun & Hrec & Hfl & _ & Hlog).
  exists w1. rewrite Hrun, monitor_loop_step, (decode_undecodable _ Hbad).
  done.
Qed.

Lemma monitor_decode_failure_keeps_earlier_lines_witness :
  ∃ w',
    _monitor_stderr
      (mkProcess ([(line_a, false)] ++ (line_bad, false) :: [(line_b, false)]) 0)
      "j" (sample_world "j" [])
    = (Raised UnicodeDecodeError, w')
    ∧ logged w' = [text line_a]
    ∧ stored_stdout "j" w' = Some [text line_a].
Proof.
  destruct (monitor_decode_failure_keeps_earlier_lines "j" [(line_a, false)]
              [(line_b, false)] line_bad false 0 (sample_world "j" []))
    as (w' & Hrun & Hlog & Hrec & _).
  - repeat constructor.
  - repeat constructor.
  - reflexivity.
  - constructor.
  - exists w'. split; [exact Hrun|]. split; [exact Hlog|].
    unfold stored_stdout. rewrite Hrec. vm_compute. reflexivity.
Defined.

(** X4.  When the store refuses the append of a line, the monitor raises the
    persistence error at that line: the line is already in the log and in
    the buffer but not in the store, which holds the lines before it, and no
    final replace is made. *)
Theorem monitor_refused_append_is_logged_not_stored (job : string)
    (pre rest : list (list Byte.byte * bool)) (raw : list Byte.byte)
    (exited : bool) (rc : Z) (w : World) :
  Forall (λ rd, terminator rd = false) pre →
  Forall decodable (map fst pre) →
  decodable raw →
  terminator (raw, exited) = false →
  Forall (λ o, o = Applied) (take (length pre) (faults (store w))) →
  faults (store w) !! length pre = Some Unreachable →
  ∃ w',
    _monitor_stderr (mkProcess (pre ++ (raw, exited) :: rest) rc) job w
    = (Raised PersistenceError, w')
    ∧ logged w' = logged w ++ map text (map fst pre) ++ [text raw]
    ∧ records (store w')
      = alter (set_stdout (λ old, old ++ map text (map fst pre))) job
          (records (store w)).
Proof.
  intros Hterm Hdec Hraw Ht Hok Hfail. unfold _monitor_stderr.
  simpl stderr_reads. rewrite fuel_split.
  destruct (monitor_loop_prefix pre (S (S (length rest))) job
              ((raw, exited) :: rest) [] w Hterm Hdec Hok)
    as (w1 & Hrun & Hrec & Hfl & _ & Hlog).
  rewrite Hrun, monitor_loop_step, (decode_decodable _ Hraw), stop_test, Ht.
  rewrite log_and_append_run.
  assert (Hh : head_outcome (store w1) = Unreachable).
  { unfold head_outcome. rewrite Hfl.
    pose proof (lookup_lt_Some _ _ _ Hfail) as Hlt.
    apply take_drop_middle in Hfail. rewrite <- Hfail at 1.
    rewrite drop_app_length'; [done|].
    rewrite length_take. lia. }
  rewrite Hh. eexists. split; [reflexivity|]. simpl.
  by rewrite Hlog, Hrec, <- app_assoc.
Qed.

Lemma monitor_refused_append_is_logged_not_stored_witness :
  ∃ w',
    _monitor_stderr
      (mkProcess ([(line_a, false)] ++ (line_b, false) :: []) 0)
      "j" (sample_world "j" [Applied; Unreachable])
    = (Raised PersistenceError, w')
    ∧ logged w' = [text line_a; text line_b]
    ∧ stored_stdout "j" w' = Some [text line_a].
Proof.
  destruct (monitor_refused_append_is_logged_not_stored "j" [(line_a, false)]
              [] line_b false 0 (sample_world "j" [Applied; Unreachable]))
    as (w' & Hrun & Hlog & Hrec).
  - repeat constructor.
  - repeat constructor.
  - reflexivity.
  - reflexivity.
  - repeat constructor.
  - reflexivity.
  - exists w'. split; [exact Hrun|]. split; [exact Hlog|].
    unfold stored_stdout. rewrite Hrec. vm_compute. reflexivity.
Defined.

(** ** Job launcher, continued *)

Section LauncherFurther.

Variable json_dumps : Overrides → string.

(** X5.  When the store cannot take the stub, [run_report] raises the
    persistence error right after calling [save_check_stub]: no process is
    spawned, no monitor is started, nothing is logged and the records are as
    they were. *)
Theorem run_report_refused_before_spawn (env : Env) (rn rt mt : string)
    (ov : Overrides) (hc pdf po : bool) (sj : option string) (sync : bool)
    (mf : option string) (nr : Z) (w : World) :
  head_outcome (store w) = Unreachable →
  ∃ w',
    run_report json_dumps env rn rt mt ov hc pdf po sj sync mf nr w
    = (inl PersistenceError, w')
    ∧ events w' = events w ++ [EvSaveCheckStub (uuid4 env)]
    ∧ records (store w') = records (store w)
    ∧ logged w' = logged w.
Proof.
  intros Hh. unfold run_report, bind, emit, on_store. simpl.
  rewrite save_check_stub_run, Hh. eexists. split; [reflexivity|]. done.
Qed.


(** X7.  A child that has not exited when it is polled after the grace
    period is taken for launched: without [run_synchronously] the job
    identity is returned whatever exit code the child ends with, while the
    same child under [run_synchronously] makes [run_report] raise as soon as
    that code is not zero. *)
Theorem run_report_late_failure_unnoticed (env : Env) (rn rt mt : string)
    (ov : Overrides) (hc pdf po : bool) (sj : option string)
    (mf : option string) (nr : Z) (w : World) :
  head_outcome (store w) ≠ Unreachable →
  exited_in_grace env = false →
  exit_code (child env) ≠ 0 →
  fst (run_report json_dumps env rn rt mt ov hc pdf po sj false mf nr w)
  = inr (uuid4 env)
  ∧ fst (run_report json_dumps env rn rt mt ov hc pdf po sj true mf nr w)
    = inl (RuntimeError
             ("The report execution failed with exit code "
              +:+ pretty (exit_code (child env)))).
Proof.
  intros Hh Hgrace Hcode.
  destruct (run_report_run json_dumps env rn rt mt ov hc pdf po sj false mf
              nr w Hh) as (w1 & _ & -> & _).
  destruct (run_report_run json_dumps env rn rt mt ov hc pdf po sj true mf
              nr w Hh) as (w2 & _ & -> & _).
  unfold launch_result, observed_returncode. rewrite Hgrace. simpl.
  by destruct (Z.eqb_spec (exit_code (child env)) 0).
Qed.


End LauncherFurther.

Lemma run_report_refused_before_spawn_witness :
  ∃ w',
    run_report sample_json_dumps (sample_env 0 false) "sales/eu" "Q1"
      "ops@example.org" [("q", PyStr "1")] false false false None false None 3
      (sample_world "j" [Unreachable])
    = (inl PersistenceError, w')
    ∧ events w' = [EvSaveCheckStub "uuid-2"]
    ∧ get_check_result "uuid-2" (store w') = None.
Proof.
  destruct (run_report_refused_before_spawn sample_json_dumps
              (sample_env 0 false) "sales/eu" "Q1" "ops@example.org"
              [("q", PyStr "1")] false false false None false None 3
              (sample_world "j" [Unreachable]))
    as (w' & Hrun & Hev & Hrec & _).
  - reflexivity.
  - exists w'. split; [exact Hrun|]. split; [exact Hev|].
    unfold get_check_result. rewrite Hrec. vm_compute. reflexivity.
Defined.


Lemma run_report_late_failure_unnoticed_witness :
  fst (run_report sample_json_dumps (sample_env 2 false) "sales/eu" "Q1"
         "ops@example.org" [] false false false None false None 3
         (sample_world "j" []))
  = inr "uuid-2"
  ∧ fst (run_report sample_json_dumps (sample_env 2 false) "sales/eu" "Q1"
           "ops@example.org" [] false false false None true None 3
           (sample_world "j" []))
    = inl (RuntimeError "The report execution failed with exit code 2").
Proof.
  apply (run_report_late_failure_unnoticed sample_json_dumps
           (sample_env 2 false) "sales/eu" "Q1" "ops@example.org" [] false
           false false None None 3 (sample_world "j" [])).
  - discriminate.
  - reflexivity.
  - discriminate.
Defined.


(** ** Rerun, continued *)

Section RerunFurther.

Variable json_dumps : Overrides → string.

(** X9.  Rerunning a rerun launches the same job again: the record of the
    second rerun has the title of the first (the marker is not repeated) and
    the report name, mailto, overrides and PDF flag of the original, with
    [hide_code] false and no scheduler job. *)
Theorem rerun_of_rerun_keeps_parameters (env1 env2 : Env) (job : string)
    (po1 sync1 po2 sync2 : bool) (w : World) (r : JobRecord) :
  get_check_result job (store w) = Some r →
  head_outcome (store w) ≠ Unreachable →
  head_outcome (store (snd (_rerun_report json_dumps env1 job po1 sync1 w)))
  ≠ Unreachable →
  ∃ r1 r2 : JobRecord,
    get_check_result (uuid4 env1)
      (store (snd (_rerun_report json_dumps env1 job po1 sync1 w)))
    = Some r1
    ∧ get_check_result (uuid4 env2)
        (store (snd (_rerun_report json_dumps env2 (uuid4 env1) po2 sync2
                       (snd (_rerun_report json_dumps env1 job po1 sync1 w)))))
      = Some r2
    ∧ report_title r1 = rerun_title (report_title r)
    ∧ report_title r2 = report_title r1
    ∧ report_name r2 = report_name r
    ∧ mailto r2 = mailto r
    ∧ overrides r2 = overrides r
    ∧ generate_pdf_output r2 = generate_pdf_output r
    ∧ hide_code r2 = false
    ∧ scheduler_job_id r2 = None.
Proof.
  intros Hr Hh Hh1.
  assert (Hfirst : _rerun_report json_dumps env1 job po1 sync1 w
                   = run_report json_dumps env1 (report_name r)
                       (rerun_title (report_title r)) (mailto r) (overrides r)
                       false (generate_pdf_output r) po1 None sync1 None 3 w)
    by (unfold _rerun_report; by rewrite Hr).
  rewrite Hfirst in *.
  destruct (run_report_run json_dumps env1 (report_name r)
              (rerun_title (report_title r)) (mailto r) (overrides r) false
              (generate_pdf_output r) po1 None sync1 None 3 w Hh)
    as (w1 & out1 & Hrun1 & _ & Hrec1 & _).
  rewrite Hrun1 in *. simpl snd in *.
  set (r1 := set_stdout (λ _, out1)
               (stub_record env1 (report_name r) (rerun_title (report_title r))
                  (mailto r) (overrides r) false (generate_pdf_output r) None)).
  assert (Hr1 : get_check_result (uuid4 env1) (store w1) = Some r1)
    by (unfold get_check_result; by rewrite Hrec1, lookup_insert_eq).
  assert (Hsecond : _rerun_report json_dumps env2 (uuid4 env1) po2 sync2 w1
                    = run_report json_dumps env2 (report_name r1)
                        (rerun_title (report_title r1)) (mailto r1)
                        (overrides r1) false (generate_pdf_output r1) po2 None
                        sync2 None 3 w1)
    by (unfold _rerun_report; by rewrite Hr1).
  rewrite Hsecond.
  destruct (run_report_run json_dumps env2 (report_name r1)
              (rerun_title (report_title r1)) (mailto r1) (overrides r1) false
              (generate_pdf_output r1) po2 None sync2 None 3 w1 Hh1)
    as (w2 & out2 & Hrun2 & _ & Hrec2 & _).
  rewrite Hrun2. simpl snd.
  exists r1, (set_stdout (λ _, out2)
                (stub_record env2 (report_name r1)
                   (rerun_title (report_title r1)) (mailto r1) (overrides r1)
                   false (generate_pdf_output r1) None)).
  split; [exact Hr1|]. split.
  { unfold get_check_result. by rewrite Hrec2, lookup_insert_eq. }
  simpl. split; [done|]. split; [|done].
  apply rerun_title_fixed, rerun_title_startswith.
Qed.

End RerunFurther.

Lemma rerun_of_rerun_keeps_parameters_witness :
  ∃ r2 : JobRecord,
    get_check_result "uuid-3"
      (store (snd (_rerun_report sample_json_dumps
                     (mkEnv sample_config "uuid-3" 1700000100
                        (mkProcess [] 0) true 0)
                     "uuid-2" false false
                     (snd (_rerun_report sample_json_dumps (sample_env 0 true)
                             "j" false false (sample_world "j" []))))))
    = Some r2
    ∧ report_title r2 = "Rerun of Q1"
    ∧ overrides r2 = [("q", PyStr "1")].
Proof.
  destruct (rerun_of_rerun_keeps_parameters sample_json_dumps
              (sample_env 0 true)
              (mkEnv sample_config "uuid-3" 1700000100 (mkProcess [] 0) true 0)
              "j" false false false false (sample_world "j" [])
              (sample_record "j" "Q1"))
    as (r1 & r2 & _ & Hr2 & Ht1 & Ht2 & _ & _ & Hov & _).
  - reflexivity.
  - discriminate.
  - vm_compute. discriminate.
  - exists r2. split; [exact Hr2|]. split; [|exact Hov].
    rewrite Ht2, Ht1. reflexivity.
Defined.

(** ** Snapshot exporter, continued *)

(** Whatever becomes of the writing of one file, it adds at most that file
    and removes nothing. *)
Lemma write_step_any (path : string) (c : content) (fs fs' : FileSystem)
    (res : exn + unit) :
  write_step (path, c) fs = (res, fs') →
  dirs fs ⊆ dirs fs'
  ∧ (files fs' = files fs ∨ files fs' = <[path := c]> (files fs)).
Proof.
  unfold write_step, bind, _create_dirs_if_not_present. simpl.
  assert (Hwrite : ∀ fs1 res1 fs2,
            os_write_file path c fs1 = (res1, fs2) →
            dirs fs2 = dirs fs1
            ∧ (files fs2 = files fs1 ∨ files fs2 = <[path := c]> (files fs1))).
  { intros fs1 res1 fs2. unfold os_write_file.
    repeat case_match; intros [= <- <-]; simpl; auto. }
  assert (Hmk : ∀ res1 fs1,
            os_makedirs (OsPath.dirname path) fs = (res1, fs1) →
            dirs fs ⊆ dirs fs1 ∧ files fs1 = files fs).
  { intros res1 fs1. unfold os_makedirs.
    repeat case_match; intros [= <- <-]; simpl; split; try done.
    intros x Hx. apply elem_of_union. left. apply elem_of_union. by left. }
  destruct (os_makedirs (OsPath.dirname path) fs) as [[e|[]] fs1] eqn:Hm;
    destruct (Hmk _ _ eq_refl) as [Hsub Hsame].
  - destruct e as [| |msg|code|errno];
      try (intros [= <- <-]; split; [done | by left]).
    destruct (bool_decide (errno ≠ EEXIST));
      [intros [= <- <-]; split; [done | by left]|].
    intros Hw. apply Hwrite in Hw as [Hd Hf]. rewrite Hd, <- Hsame.
    split; [done|]. destruct Hf as [->| ->]; auto.
  - intros Hw. apply Hwrite in Hw as [Hd Hf]. rewrite Hd, <- Hsame.
    split; [done|]. destruct Hf as [->| ->]; auto.
Qed.

(** The two ways in which the writing of one file goes through: into a
    directory that is there, or into one it has just made. *)
Lemma write_step_shape (path : string) (c : content) (fs fs' : FileSystem) :
  write_step (path, c) fs = (inr (), fs') →
  (OsPath.dirname path ∈ dirs fs
   ∧ fs' = {| dirs := dirs fs; files := <[path := c]> (files fs);
              mkdir_fault := mkdir_fault fs;
              fs_log := fs_log fs ++ [FsWrite path c] |})
  ∨ ((OsPath.dirname path ∉ dirs fs)
     ∧ fs' = {| dirs := dirs fs ∪ {[OsPath.dirname path]}
                        ∪ list_to_set (ancestors (OsPath.dirname path));
                files := <[path := c]> (files fs);
                mkdir_fault := mkdir_fault fs;
                fs_log := (fs_log fs ++ [FsMakedirs (OsPath.dirname path)])
                          ++ [FsWrite path c] |}).
Proof.
  unfold write_step, bind, _create_dirs_if_not_present, os_makedirs,
    os_write_file. simpl.
  set (d := OsPath.dirname path).
  destruct (String.eqb_spec d "") as [|Hd]; [done|].
  destruct (bool_decide (d ∈ dirs fs)) eqn:Hdir; simpl.
  { apply bool_decide_eq_true_1 in Hdir.
    destruct (bool_decide (path ∈ dirs fs)) eqn:Hp; [done|].
    rewrite (bool_decide_eq_true_2 _ Hdir). simpl. intros [= <-].
    by left. }
  apply bool_decide_eq_false_1 in Hdir.
  destruct (bool_decide (d ∈ dom (files fs))) eqn:Hfile; simpl.
  { destruct (bool_decide (path ∈ dirs fs)); [done|].
    rewrite (bool_decide_eq_false_2 _ Hdir). simpl.
    by destruct (bool_decide (d ∈ dom (files fs))). }
  destruct (existsb _ (ancestors d)) eqn:Hanc; simpl; [done|].
  destruct (mkdir_fault fs !! d) as [e|] eqn:Hfault; simpl.
  { destruct (bool_decide (e ≠ EEXIST)); [done|].
    destruct (bool_decide (path ∈ dirs fs)); [done|].
    rewrite (bool_decide_eq_false_2 _ Hdir). simpl.
    by destruct (bool_decide (d ∈ dom (files fs))). }
  destruct (bool_decide (path ∈ _)) eqn:Hp; [done|].
  assert (Hnew : d ∈ dirs fs ∪ {[d]} ∪ list_to_set (ancestors d)).
  { apply elem_of_union. left. apply elem_of_union. right.
    by apply elem_of_singleton. }
  rewrite (bool_decide_eq_true_2 _ Hnew). simpl.
  intros [= <-]. by right.
Qed.

Lemma write_step_log (path : string) (c : content) (fs fs' : FileSystem) :
  write_step (path, c) fs = (inr (), fs') →
  ∃ l, fs_log fs' = fs_log fs ++ l ∧ writes_of l = [(path, c)].
Proof.
  intros [[_ ->]|[_ ->]]%write_step_shape; simpl.
  - by exists [FsWrite path c].
  - exists [FsMakedirs (OsPath.dirname path); FsWrite path c].
    by rewrite <- app_assoc.
Qed.

Lemma run_steps_any (steps : list (string * content)) :
  ∀ (fs fs' : FileSystem) (res : exn + unit),
    run_steps steps fs = (res, fs') →
    dirs fs ⊆ dirs fs'
    ∧ (∀ p, p ∉ map fst steps → files fs' !! p = files fs !! p)
    ∧ (∀ p, is_Some (files fs !! p) → is_Some (files fs' !! p)).
Proof.
  induction steps as [|[path c] rest IH]; intros fs fs' res.
  - by intros [= <- <-].
  - simpl. unfold bind.
    destruct (write_step (path, c) fs) as [[e|[]] fs1] eqn:Hstep.
    + intros [= <- <-]. apply write_step_any in Hstep as [Hsub Hfiles].
      split; [done|]. split.
      * intros p Hp. apply not_elem_of_cons in Hp as [Hne _].
        destruct Hfiles as [->| ->]; [done | by rewrite lookup_insert_ne].
      * intros p Hp. destruct Hfiles as [->| ->]; [done|].
        destruct (decide (path = p)) as [->|Hne];
          [rewrite lookup_insert_eq; by eexists | by rewrite lookup_insert_ne].
    + intros Hrest. apply write_step_any in Hstep as [Hsub Hfiles].
      apply IH in Hrest as (Hsub' & Hother & Hkeep).
      split; [by transitivity (dirs fs1)|]. split.
      * intros p Hp. apply not_elem_of_cons in Hp as [Hne Hp].
        rewrite (Hother p Hp).
        destruct Hfiles as [->| ->]; [done | by rewrite lookup_insert_ne].
      * intros p Hp. apply Hkeep.
        destruct Hfiles as [->| ->]; [done|].
        destruct (decide (path = p)) as [->|Hne];
          [rewrite lookup_insert_eq; by eexists | by rewrite lookup_insert_ne].
Qed.

Lemma run_steps_writes (steps : list (string * content)) :
  ∀ fs fs' : FileSystem,
    run_steps steps fs = (inr (), fs') →
    ∃ l, fs_log fs' = fs_log fs ++ l ∧ writes_of l = steps.
Proof.
  induction steps as [|[path c] rest IH]; intros fs fs'.
  - intros [= <-]. exists []. by rewrite app_nil_r.
  - simpl. unfold bind.
    destruct (write_step (path, c) fs) as [[e|[]] fs1] eqn:Hstep; [done|].
    intros Hrest. apply write_step_log in Hstep as (l1 & Hlog1 & Hw1).
    apply IH in Hrest as (l2 & Hlog2 & Hw2).
    exists (l1 ++ l2). split; [by rewrite Hlog2, Hlog1, <- app_assoc|].
    unfold writes_of in *. by rewrite omap_app, Hw1, Hw2.
Qed.

Lemma foldl_put_last (b : list (string * content)) :
  ∀ (m : gmap string content) (p : string) (c : content),
    p ∉ map fst b → m !! p = Some c → foldl put_step m b !! p = Some c.
Proof.
  induction b as [|[q d] b IH]; intros m p c Hp Hm; [done|].
  simpl in *. apply not_elem_of_cons in Hp as [Hne Hp].
  apply IH; [done|]. unfold put_step. simpl. by rewrite lookup_insert_ne.
Qed.

Lemma write_results_app (a b : list JobRecord) (directory : string)
    (fs : FileSystem) :
  _write_results (a ++ b) directory fs
  = (_write_results a directory ;;; _write_results b directory) fs.
Proof.
  revert fs. induction a as [|r a IH]; intros fs; [done|].
  simpl. rewrite !bind_assoc. apply bind_ext. intros _ s1.
  rewrite bind_assoc. apply bind_ext. intros _ s2. apply IH.
Qed.

Lemma contains_slash_app (a b : string) :
  Str.contains_slash (a +:+ b) = Str.contains_slash a || Str.contains_slash b.
Proof.
  induction a as [|c a IH]; [done|].
  rewrite append_cons. simpl. by rewrite IH, orb_assoc.
Qed.

Lemma dirname_no_slash (p : string) :
  Str.contains_slash p = false → OsPath.dirname p = "".
Proof.
  intros Hp. unfold OsPath.dirname.
  destruct p as [|c p]; [done|]. simpl in *. by rewrite Hp.
Qed.

Lemma join_empty_directory (f : string) : OsPath.join "" [f] = f.
Proof.
  unfold OsPath.join, OsPath.join_step. simpl.
  by destruct (Str.startswith f "/").
Qed.

Section SnapshotFurther.

Variable query : string → Store → list JobRecord.

(** X10.  Whether an export goes through or fails on the way, it touches no
    file but those of its records: every other file keeps its content, no
    file disappears and no directory is removed.  With no record to export
    nothing happens at all, not even the report directory is made. *)
Theorem snapshot_touches_only_its_files (OUTPUT_DIR : string) (st : Store)
    (name : string) (fs fs' : FileSystem) (res : exn + unit) :
  snap_latest_successful_notebooks query OUTPUT_DIR st name fs = (res, fs') →
  (∀ p, p ∉ map fst
              (export_steps
                 (OsPath.join OUTPUT_DIR
                    [Str.last_item (Str.split_slash name)])
                 (query name st)) →
        files fs' !! p = files fs !! p)
  ∧ (∀ p, is_Some (files fs !! p) → is_Some (files fs' !! p))
  ∧ dirs fs ⊆ dirs fs'
  ∧ (query name st = [] → res = inr () ∧ fs' = fs).
Proof.
  intros Hrun. rewrite snap_steps in Hrun.
  pose proof (run_steps_any _ _ _ _ Hrun) as (Hsub & Hother & Hkeep).
  split; [done|]. split; [done|]. split; [done|].
  intros Hnone. rewrite Hnone in Hrun. simpl in Hrun. by injection Hrun.
Qed.

(** X11.  An export that goes through writes exactly the files of its
    records and in their order: for each record of the query in turn the
    rendered document, then the record's outputs in the order of their
    mapping.  Of several writes to one path the last one decides the
    content the file has at the end. *)
Theorem snapshot_writes_in_order (OUTPUT_DIR : string) (st : Store)
    (name : string) (fs fs' : FileSystem) :
  snap_latest_successful_notebooks query OUTPUT_DIR st name fs = (inr (), fs') →
  ∃ l,
    fs_log fs' = fs_log fs ++ l
    ∧ writes_of l
      = export_steps
          (OsPath.join OUTPUT_DIR [Str.last_item (Str.split_slash name)])
          (query name st)
    ∧ ∀ a p c b,
        export_steps
          (OsPath.join OUTPUT_DIR [Str.last_item (Str.split_slash name)])
          (query name st)
        = a ++ (p, c) :: b →
        p ∉ map fst b →
        files fs' !! p = Some c.
Proof.
  intros Hrun. rewrite snap_steps in Hrun.
  destruct (run_steps_writes _ _ _ Hrun) as (l & Hlog & Hw).
  apply run_steps_success in Hrun as (_ & _ & Hfiles & _).
  exists l. split; [done|]. split; [done|].
  intros a p c b Hsplit Hp. rewrite Hfiles, Hsplit, foldl_app. simpl.
  apply foldl_put_last; [done|]. unfold put_step at 1. simpl.
  apply lookup_insert_eq.
Qed.

(** X12.  An output whose path in the mapping starts with ["/"] is written
    to that very path: the export directory does not confine it. *)
Theorem snapshot_absolute_output_path (OUTPUT_DIR : string) (st : Store)
    (name : string) (fs fs' : FileSystem) (r : JobRecord) (path : string)
    (output : list Byte.byte) :
  snap_latest_successful_notebooks query OUTPUT_DIR st name fs = (inr (), fs') →
  r ∈ query name st →
  (path, output) ∈ raw_html_resources_outputs r →
  Str.startswith path "/" = true →
  (∃ l, fs_log fs' = fs_log fs ++ l ∧ FsWrite path (Binary output) ∈ l)
  ∧ is_Some (files fs' !! path).
Proof.
  intros Hrun Hr Hout Habs. rewrite snap_steps in Hrun.
  set (directory := OsPath.join OUTPUT_DIR
                      [Str.last_item (Str.split_slash name)]) in *.
  assert (Hstep : (path, Binary output) ∈ export_steps directory (query name st)).
  { apply list_elem_of_In, in_flat_map. exists r.
    split; [by apply list_elem_of_In|]. right.
    apply list_elem_of_In, list_elem_of_fmap. exists (path, output).
    split; [|done]. unfold OsPath.join, OsPath.join_step. simpl.
    by rewrite Habs. }
  apply run_steps_success in Hrun as (_ & _ & Hfiles & (l & Hlog & Hall) & _).
  split.
  - exists l. split; [done|]. by apply (Hall _ Hstep).
  - rewrite Hfiles. by apply (foldl_put_written _ _ _ Hstep).
Qed.

End SnapshotFurther.

(** X13.  The export of a list of records stops at the first record whose
    files cannot be written: the error of that record is the error of the
    export, the records after it are not attempted, and the files of the
    records before it stay written. *)
Theorem write_results_stops_at_first_failure (done_ rest : list JobRecord)
    (r : JobRecord) (directory : string) (fs fs1 fs2 : FileSystem) (e : exn) :
  _write_results done_ directory fs = (inr (), fs1) →
  (_write_notebook_html r directory ;;; _write_notebook_outputs r directory) fs1
  = (inl e, fs2) →
  _write_results (done_ ++ r :: rest) directory fs = (inl e, fs2)
  ∧ ∀ step, step ∈ export_steps directory done_ →
            is_Some (files fs2 !! fst step).
Proof.
  intros Hdone Hfail. split.
  - rewrite write_results_app. unfold bind at 1. rewrite Hdone.
    cbn [_write_results]. rewrite <- bind_assoc. unfold bind at 1.
    by rewrite Hfail.
  - intros step Hstep.
    assert (Hone : run_steps (export_steps directory [r]) fs1 = (inl e, fs2)).
    { rewrite <- write_results_steps. cbn [_write_results].
      rewrite <- bind_assoc. unfold bind at 1. by rewrite Hfail. }
    apply run_steps_any in Hone as (_ & _ & Hkeep). apply Hkeep.
    rewrite write_results_steps in Hdone.
    apply run_steps_success in Hdone as (_ & _ & -> & _).
    by apply foldl_put_written.
Qed.

(** X14.  A file name without a directory part cannot be exported: the
    directory to make is the empty path, [os.makedirs] fails on it with
    [ENOENT] and the error is raised again.  So the rendered document of a
    record cannot be written into the empty directory name. *)
Theorem create_dirs_needs_directory_part (filename : string)
    (fs : FileSystem) :
  Str.contains_slash filename = false →
  _create_dirs_if_not_present filename fs = (inl (OSError ENOENT), fs)
  ∧ ∀ result,
      override_str (overrides result) +:+ ".html" = filename →
      _write_notebook_html result "" fs = (inl (OSError ENOENT), fs).
Proof.
  intros Hp.
  assert (Hraise : _create_dirs_if_not_present filename fs
                   = (inl (OSError ENOENT), fs)).
  { unfold _create_dirs_if_not_present, os_makedirs.
    by rewrite (dirname_no_slash _ Hp). }
  split; [done|]. intros result Hname.
  unfold _write_notebook_html, bind. by rewrite join_empty_directory, Hname, Hraise.
Qed.

(** X15.  A regular file in the place of the directory is taken for the
    directory being there: creating the directories returns without error,
    and it is the write that fails, with [ENOTDIR]; nothing is written. *)
Theorem create_dirs_accepts_file_in_the_way (filename : string)
    (fs : FileSystem) :
  OsPath.dirname filename ≠ "" →
  OsPath.dirname filename ∉ dirs fs →
  is_Some (files fs !! OsPath.dirname filename) →
  filename ∉ dirs fs →
  _create_dirs_if_not_present filename fs = (inr (), fs)
  ∧ ∀ result directory,
      OsPath.join directory [override_str (overrides result) +:+ ".html"]
      = filename →
      _write_notebook_html result directory fs = (inl (OSError ENOTDIR), fs).
Proof.
  intros Hd Hnodir Hfile Hp.
  assert (Hdom : OsPath.dirname filename ∈ dom (files fs))
    by (by apply elem_of_dom).
  assert (Hok : _create_dirs_if_not_present filename fs = (inr (), fs)).
  { unfold _create_dirs_if_not_present, os_makedirs.
    destruct (String.eqb_spec (OsPath.dirname filename) ""); [done|].
    by rewrite (bool_decide_eq_false_2 _ Hnodir), (bool_decide_eq_true_2 _ Hdom). }
  split; [done|]. intros result directory Hname.
  unfold _write_notebook_html, bind. rewrite Hname, Hok.
  unfold os_write_file.
  rewrite (bool_decide_eq_false_2 _ Hp), (bool_decide_eq_false_2 _ Hnodir),
    (bool_decide_eq_true_2 _ Hdom).
  by destruct (String.eqb_spec (OsPath.dirname filename) "").
Qed.

Lemma head_upto_last_slash_no_slash (f : string) :
  Str.contains_slash f = false → OsPath.head_upto_last_slash f = "".
Proof. destruct f as [|c f]; [done|]. simpl. by intros ->. Qed.

Lemma head_upto_last_slash_dir (a f : string) :
  Str.contains_slash f = false →
  OsPath.head_upto_last_slash (a +:+ "/" +:+ f) = a +:+ "/".
Proof.
  intros Hf. induction a as [|c a IH].
  - change ("" +:+ "/" +:+ f) with (String "/" f). simpl.
    by rewrite (head_upto_last_slash_no_slash _ Hf).
  - change (String c a +:+ "/" +:+ f) with (String c (a +:+ "/" +:+ f)).
    change (String c a +:+ "/") with (String c (a +:+ "/")).
    cbn [OsPath.head_upto_last_slash]. rewrite IH.
    rewrite contains_slash_app.
    change (Str.contains_slash ("/" +:+ f)) with true.
    by rewrite !orb_true_r.
Qed.

Lemma all_slashes_dir (d : string) :
  d ≠ "" → Str.endswith_slash d = false → Str.all_slashes (d +:+ "/") = false.
Proof.
  induction d as [|c d IH]; [done|]. intros _ Hend.
  rewrite append_cons. simpl. destruct d as [|c' d].
  - simpl in Hend. by rewrite Hend.
  - rewrite IH; [apply andb_false_r | done | done].
Qed.

Lemma rstrip_slash_dir (d : string) :
  d ≠ "" → Str.endswith_slash d = false → Str.rstrip_slash (d +:+ "/") = d.
Proof.
  induction d as [|c d IH]; [done|]. intros _ Hend.
  rewrite append_cons. simpl. destruct d as [|c' d].
  - simpl in *. by rewrite Hend.
  - rewrite IH; [done | done | done].
Qed.

(** The directory of a file joined to a directory is that directory. *)
Lemma dirname_join (d f : string) :
  d ≠ "" → Str.endswith_slash d = false → Str.contains_slash f = false →
  OsPath.join d [f] = d +:+ "/" +:+ f
  ∧ OsPath.dirname (OsPath.join d [f]) = d.
Proof.
  intros Hd Hend Hf.
  assert (Hjoin : OsPath.join d [f] = d +:+ "/" +:+ f).
  { unfold OsPath.join, OsPath.join_step. simpl.
    rewrite (no_slash_startswith _ Hf), Hend.
    by destruct (String.eqb_spec d ""). }
  split; [done|]. rewrite Hjoin. unfold OsPath.dirname.
  rewrite (head_upto_last_slash_dir _ _ Hf), (all_slashes_dir _ Hd Hend).
  destruct (String.eqb_spec (d +:+ "/") "") as [E|_]; [by destruct d|].
  simpl. by apply rstrip_slash_dir.
Qed.

(** X16.  A rendered document whose label holds no ["/"] lands directly in
    the export directory: when the write goes through, the directory of the
    file is the export directory, that directory exists afterwards, and the
    file [directory/label.html] holds the rendered text. *)
Theorem written_document_sits_in_its_directory (result : JobRecord)
    (directory : string) (fs fs' : FileSystem) :
  _write_notebook_html result directory fs = (inr (), fs') →
  directory ≠ "" →
  Str.endswith_slash directory = false →
  Str.contains_slash (override_str (overrides result)) = false →
  OsPath.dirname
    (OsPath.join directory [override_str (overrides result) +:+ ".html"])
  = directory
  ∧ directory ∈ dirs fs'
  ∧ files fs' !! (directory +:+ "/" +:+ label_of (overrides result)
                  +:+ ".html")
    = Some (Text (raw_html result)).
Proof.
  intros Hwrite Hd Hend Hlabel.
  assert (Hf : Str.contains_slash (override_str (overrides result) +:+ ".html")
               = false)
    by (by rewrite contains_slash_app, Hlabel).
  destruct (dirname_join directory _ Hd Hend Hf) as [Hjoin Hdir].
  change (_write_notebook_html result directory fs)
    with (write_step
            (OsPath.join directory
               [override_str (overrides result) +:+ ".html"],
             Text (raw_html result)) fs) in Hwrite.
  apply write_step_success in Hwrite as (_ & Hin & _ & Hfiles & _).
  rewrite Hdir in Hin. split; [done|]. split; [done|].
  rewrite Hfiles, Hjoin, override_str_label. apply lookup_insert_eq.
Qed.

Lemma snapshot_touches_only_its_files_witness :
  files (snd (snap_latest_successful_notebooks sample_query "out" eu_store
                "sales/eu" fs_file_in_the_way))
  !! "out/eu"
  = Some (Text "not a directory").
Proof.
  destruct (snapshot_touches_only_its_files sample_query "out" eu_store
              "sales/eu" fs_file_in_the_way
              (snd (snap_latest_successful_notebooks sample_query "out"
                      eu_store "sales/eu" fs_file_in_the_way))
              (fst (snap_latest_successful_notebooks sample_query "out"
                      eu_store "sales/eu" fs_file_in_the_way)))
    as (Hother & _).
  - vm_compute. reflexivity.
  - rewrite Hother; [reflexivity|].
    replace (map fst
               (export_steps
                  (OsPath.join "out" [Str.last_item (Str.split_slash "sales/eu")])
                  (sample_query "sales/eu" eu_store)))
      with ["out/eu/region_EUyear_2024.html"; "out/eu/img/plot.png"]
      by (vm_compute; reflexivity).
    rewrite !not_elem_of_cons. repeat split; try discriminate.
    apply not_elem_of_nil.
Defined.

Lemma snapshot_writes_in_order_witness :
  ∃ l,
    fs_log (snd (snap_latest_successful_notebooks clash_query "out" eu_store
                   "sales/eu" empty_fs))
    = l
    ∧ writes_of l
      = [("out/eu/a_b_c.html", Text "<p>first</p>");
         ("out/eu/a_b_c.html", Text "<p>second</p>");
         ("/tmp/plot.png", Binary [Byte.x01])]
    ∧ files (snd (snap_latest_successful_notebooks clash_query "out" eu_store
                    "sales/eu" empty_fs))
      !! "out/eu/a_b_c.html"
      = Some (Text "<p>second</p>").
Proof.
  destruct (snapshot_writes_in_order clash_query "out" eu_store "sales/eu"
              empty_fs
              (snd (snap_latest_successful_notebooks clash_query "out"
                      eu_store "sales/eu" empty_fs)))
    as (l & Hlog & Hw & Hlast).
  - vm_compute. reflexivity.
  - exists l. split; [exact Hlog|]. split; [exact Hw|].
    apply (Hlast [("out/eu/a_b_c.html", Text "<p>first</p>")]
             "out/eu/a_b_c.html" (Text "<p>second</p>")
             [("/tmp/plot.png", Binary [Byte.x01])]).
    + reflexivity.
    + simpl. rewrite not_elem_of_cons. split; [discriminate|].
      apply not_elem_of_nil.
Defined.

Lemma snapshot_absolute_output_path_witness :
  is_Some (files (snd (snap_latest_successful_notebooks clash_query "out"
                         eu_store "sales/eu" empty_fs))
           !! "/tmp/plot.png").
Proof.
  destruct (snapshot_absolute_output_path clash_query "out" eu_store
              "sales/eu" empty_fs
              (snd (snap_latest_successful_notebooks clash_query "out"
                      eu_store "sales/eu" empty_fs))
              clash_second "/tmp/plot.png" [Byte.x01])
    as (_ & Hfile).
  - vm_compute. reflexivity.
  - right. left.
  - left.
  - reflexivity.
  - exact Hfile.
Defined.

Lemma write_results_stops_at_first_failure_witness :
  fst (_write_results ([clash_first] ++ eu_record :: [clash_second]) "out/eu"
         fs_denied_img)
  = inl (OSError EACCES)
  ∧ is_Some (files (snd (_write_results
                           ([clash_first] ++ eu_record :: [clash_second])
                           "out/eu" fs_denied_img))
             !! "out/eu/a_b_c.html")
  ∧ files (snd (_write_results ([clash_first] ++ eu_record :: [clash_second])
                  "out/eu" fs_denied_img))
    !! "/tmp/plot.png"
    = None.
Proof.
  destruct (write_results_stops_at_first_failure [clash_first] [clash_second]
              eu_record "out/eu" fs_denied_img
              (snd (_write_results [clash_first] "out/eu" fs_denied_img))
              (snd ((_write_notebook_html eu_record "out/eu" ;;;
                     _write_notebook_outputs eu_record "out/eu")
                      (snd (_write_results [clash_first] "out/eu"
                              fs_denied_img))))
              (OSError EACCES))
    as [Hrun Hkeep].
  - vm_compute. reflexivity.
  - vm_compute. reflexivity.
  - rewrite Hrun. split; [reflexivity|]. split.
    + apply (Hkeep ("out/eu/a_b_c.html", Text "<p>first</p>")). left.
    + vm_compute. reflexivity.
Defined.

Lemma create_dirs_needs_directory_part_witness :
  _create_dirs_if_not_present "region_EUyear_2024.html" empty_fs
  = (inl (OSError ENOENT), empty_fs)
  ∧ _write_notebook_html eu_record "" empty_fs
    = (inl (OSError ENOENT), empty_fs).
Proof.
  destruct (create_dirs_needs_directory_part "region_EUyear_2024.html"
              empty_fs) as [Hdirs Hhtml].
  - reflexivity.
  - split; [exact Hdirs|]. apply Hhtml. reflexivity.
Defined.

Lemma create_dirs_accepts_file_in_the_way_witness :
  _create_dirs_if_not_present "out/eu/region_EUyear_2024.html"
    fs_file_in_the_way
  = (inr (), fs_file_in_the_way)
  ∧ _write_notebook_html eu_record "out/eu" fs_file_in_the_way
    = (inl (OSError ENOTDIR), fs_file_in_the_way).
Proof.
  destruct (create_dirs_accepts_file_in_the_way
              "out/eu/region_EUyear_2024.html" fs_file_in_the_way)
    as [Hdirs Hhtml].
  - discriminate.
  - vm_compute. discriminate.
  - vm_compute. by eexists.
  - vm_compute. discriminate.
  - split; [exact Hdirs|]. apply Hhtml. reflexivity.
Defined.

Lemma written_document_sits_in_its_directory_witness :
  "out/eu" ∈ dirs (snd (_write_notebook_html eu_record "out/eu" empty_fs))
  ∧ files (snd (_write_notebook_html eu_record "out/eu" empty_fs))
    !! "out/eu/region_EUyear_2024.html"
    = Some (Text "<html>EU 2024</html>").
Proof.
  destruct (written_document_sits_in_its_directory eu_record "out/eu" empty_fs
              (snd (_write_notebook_html eu_record "out/eu" empty_fs)))
    as (_ & Hdir & Hfile).
  - vm_compute. reflexivity.
  - discriminate.
  - reflexivity.
  - reflexivity.
  - split; [exact Hdir | exact Hfile].
Defined.

(** ** Request handlers *)

Section HandlersProperties.

Variable json_dumps : Overrides → string.
Variable validate_title : option string → list string → string * list string.
Variable validate_mailto : option string → list string → string * list string.
Variable convert_report_name_url_to_path : string → string.
Variable url_for : string → string → string → string.
Variable repr_values : gmap string string → string.
Variable repr_params : RunReportParams.t → string.
Variable repr_overrides : Overrides → string.

Lemma validate_run_params_run (params : gmap string string)
    (issues : list string) (w : World) :
  ∃ w',
    validate_run_params validate_title validate_mailto repr_values repr_params
      params issues w
    = (inr (validated validate_title validate_mailto params issues), w')
    ∧ store w' = store w ∧ events w' = events w.
Proof.
  unfold validate_run_params, validated, bind, logger_info, ret. cbv zeta.
  destruct (validate_title (params !! "report_title") issues) as [t i1].
  cbn [fst snd].
  destruct (validate_mailto (params !! "mailto") i1) as [m i2].
  cbn [fst snd].
  destruct (validate_mailto (params !! "mailfrom") i2) as [f i3].
  cbn [fst snd].
  eexists. split; [reflexivity|]. done.
Qed.

(** X17.  When the validation leaves any issue, the request is answered with
    the body [Failed] and the issues joined by newlines, without a status
    code of its own, and nothing is launched: no stub is written and no
    process is spawned. *)
Theorem handle_run_report_rejects_on_issues (env : Env)
    (values : gmap string string) (name : string) (ov : Overrides)
    (issues : list string) (w : World) :
  snd (validated validate_title validate_mailto values issues) ≠ [] →
  ∃ w',
    _handle_run_report json_dumps validate_title validate_mailto
      convert_report_name_url_to_path url_for repr_values repr_params
      repr_overrides env values name ov issues w
    = (inr (Body [("status", "Failed");
                  ("content",
                   join_newline
                     (snd (validated validate_title validate_mailto values
                             issues)))]), w')
    ∧ store w' = store w
    ∧ events w' = events w.
Proof.
  intros Hissues. unfold _handle_run_report, bind at 1.
  destruct (validate_run_params_run values issues w) as (w1 & -> & Hst & Hev).
  destruct (validated validate_title validate_mailto values issues)
    as [params [|i rest]]; [done|].
  simpl. exists w1. done.
Qed.


(** X19.  A child that has exited with a nonzero code when it is polled is
    answered with status 500 and a body that carries the exit code; the stub
    written at submission stays in the store with status [SUBMITTED]. *)
Theorem handle_run_report_launch_failure (env : Env)
    (values : gmap string string) (name : string) (ov : Overrides)
    (issues : list string) (w : World) :
  snd (validated validate_title validate_mailto values issues) = [] →
  head_outcome (store w) ≠ Unreachable →
  exited_in_grace env = true →
  exit_code (child env) ≠ 0 →
  ∃ w',
    _handle_run_report json_dumps validate_title validate_mailto
      convert_report_name_url_to_path url_for repr_values repr_params
      repr_overrides env values name ov issues w
    = (inr (BodyStatusHeaders
              [("status", "Failed");
               ("content",
                "The job failed to initialise. Error: "
                +:+ "The report execution failed with exit code "
                +:+ pretty (exit_code (child env)))]
              500 []), w')
    ∧ status <$> get_check_result (uuid4 env) (store w') = Some SUBMITTED.
Proof.
  intros Hissues Hh Hgrace Hcode. unfold _handle_run_report, bind at 1.
  destruct (validate_run_params_run values issues w) as (w1 & -> & Hst & Hev).
  destruct (validated validate_title validate_mailto values issues)
    as [params iss]. simpl in Hissues. subst iss.
  unfold bind, logger_info. simpl.
  match goal with
  | |- context [run_report ?j ?e ?rn ?rt ?mt ?o ?hc ?pdf ?po ?sj ?sy ?mf ?nr ?x] =>
      destruct (run_report_run j e rn rt mt o hc pdf po sj sy mf nr x)
        as (w' & out & Hrun & _ & Hrec & _);
        [simpl; by rewrite Hst|]
  end.
  rewrite Hrun. unfold launch_result, observed_returncode.
  rewrite Hgrace. simpl.
  destruct (Z.eqb_spec (exit_code (child env)) 0); [done|].
  exists w'. split; [done|].
  unfold get_check_result. by rewrite Hrec, lookup_insert_eq.
Qed.

(** X20.  The rerun view answers with the result page of the new job under
    the report name of the request, while the job it launches is the one of
    the stored record: the report name in the address plays no part in the
    launch.  A launch that fails is not caught here: the run-time error
    leaves the view. *)
Theorem rerun_view_links_new_job (env : Env) (job url_name : string)
    (w : World) (r : JobRecord) :
  get_check_result job (store w) = Some r →
  head_outcome (store w) ≠ Unreachable →
  ∃ w',
    rerun_report json_dumps url_for env job url_name w
    = (match launch_result env false with
       | inr new_job_id =>
           inr (Body [("results_url",
                       url_for "serve_results_bp.task_results" url_name
                         new_job_id)])
       | inl e => inl e
       end, w')
    ∧ report_name <$> get_check_result (uuid4 env) (store w')
      = Some (report_name r)
    ∧ (truthy (observed_returncode env false) = false →
       launch_result env false = inr (uuid4 env)).
Proof.
  intros Hr Hh. unfold rerun_report, bind, _rerun_report. rewrite Hr.
  destruct (run_report_run json_dumps env (report_name r)
              (rerun_title (report_title r)) (mailto r) (overrides r) false
              (generate_pdf_output r) false None false None 3 w Hh)
    as (w' & out & Hrun & _ & Hrec & _).
  rewrite Hrun. exists w'. split; [by destruct (launch_result env false)|].
  unfold get_check_result. rewrite Hrec, lookup_insert_eq.
  split; [done|]. unfold launch_result.
  destruct (observed_returncode env false) as [c|]; simpl; [|done].
  by destruct (c =? 0).
Qed.

End HandlersProperties.

Lemma handle_run_report_rejects_on_issues_witness :
  ∃ w',
    _handle_run_report sample_json_dumps sample_validate_title
      sample_validate_mailto (λ name, name) sample_url_for sample_repr
      sample_repr sample_repr (sample_env 0 false) ∅ "sales/eu"
      [("q", PyStr "1")] ["Overrides could not be parsed"]
      (sample_world "j" [])
    = (inr (Body [("status", "Failed");
                  ("content",
                   join_newline ["Overrides could not be parsed";
                                 "Report title must not be empty"])]), w')
    ∧ store w' = store (sample_world "j" [])
    ∧ events w' = [].
Proof.
  destruct (handle_run_report_rejects_on_issues sample_json_dumps
              sample_validate_title sample_validate_mailto (λ name, name)
              sample_url_for sample_repr sample_repr sample_repr
              (sample_env 0 false) ∅ "sales/eu" [("q", PyStr "1")]
              ["Overrides could not be parsed"] (sample_world "j" []))
    as (w' & Hrun & Hst & Hev).
  - vm_compute. discriminate.
  - exists w'. split; [exact Hrun|]. split; [exact Hst | exact Hev].
Defined.


Lemma handle_run_report_launch_failure_witness :
  ∃ w',
    _handle_run_report sample_json_dumps sample_validate_title
      sample_validate_mailto (λ name, name) sample_url_for sample_repr
      sample_repr sample_repr (sample_env 2 true) sample_values "sales/eu"
      [("q", PyStr "1")] [] (sample_world "j" [])
    = (inr (BodyStatusHeaders
              [("status", "Failed");
               ("content",
                "The job failed to initialise. Error: The report execution failed with exit code 2")]
              500 []), w')
    ∧ status <$> get_check_result "uuid-2" (store w') = Some SUBMITTED.
Proof.
  apply (handle_run_report_launch_failure sample_json_dumps
           sample_validate_title sample_validate_mailto (λ name, name)
           sample_url_for sample_repr sample_repr sample_repr
           (sample_env 2 true) sample_values "sales/eu" [("q", PyStr "1")] []
           (sample_world "j" [])).
  - vm_compute. reflexivity.
  - discriminate.
  - reflexivity.
  - discriminate.
Defined.

Lemma rerun_view_links_new_job_witness :
  ∃ w',
    rerun_report sample_json_dumps sample_url_for (sample_env 0 true) "j"
      "another/name" (sample_world "j" [])
    = (inr (Body [("results_url",
                   "/serve_results_bp.task_results/another/name/uuid-2")]),
       w')
    ∧ report_name <$> get_check_result "uuid-2" (store w') = Some "sales/eu".
Proof.
  destruct (rerun_view_links_new_job sample_json_dumps sample_url_for
              (sample_env 0 true) "j" "another/name" (sample_world "j" [])
              (sample_record "j" "Q1"))
    as (w' & Hrun & Hname & _).
  - reflexivity.
  - discriminate.
  - exists w'. split; [exact Hrun | exact Hname].
Defined.

Section ValidationProperties.

Variable validate_title : option string → list string → string * list string.
Variable validate_mailto : option string → list string → string * list string.
Variable repr_values : gmap string string → string.
Variable repr_params : RunReportParams.t → string.


End ValidationProperties.
